(** * Automated-FileManager: a shallow embedding of the file-operation
    service, the metadata store, the LLM response handler and the
    command interpreter, with the properties stated about them.

    Layout of the development:
    - [PyStr], [PosixPath]: the Python string and [os.path] functions the
      code calls, on strings of characters with code points below 256.
    - [Fs]: the file system the code runs against: a tree of regular
      files, directories and named pipes reached through POSIX path
      resolution, with [os.remove], [shutil.rmtree], [os.rename],
      [shutil.move], [shutil.copy2] and [shutil.copytree].  A regular
      file can carry the immutable attribute, under which the system
      refuses to unlink, rename or write it.  Symbolic links, permission
      bits and I/O errors are outside the model.
    - [Shlex], [Json]: [shlex.split] and [json.loads].
    - [SecurityService], [FileOperationService], [FileOperations],
      [CommandInterpreter], [LlmResponse], [MetadataService]: the code of
      the repository, function by function.
    - the vocabulary of the properties, then the lemmas and theorems. *)

From Stdlib Require Import Ascii String DecimalString.
From stdpp Require Import gmap strings list sorting.

Local Open Scope string_scope.
Local Open Scope list_scope.

(** ** Python [str] methods *)

Module PyStr.

Definition chr (n : nat) : ascii := ascii_of_nat n.

Definition char_eqb (a b : ascii) : bool := Ascii.eqb a b.

(** [str.isspace] on one character (code points below 256). *)
Definition isspace (c : ascii) : bool :=
  let n := nat_of_ascii c in
  ((9 <=? n)%nat && (n <=? 13)%nat) || ((28 <=? n)%nat && (n <=? 32)%nat)
  || (n =? 133)%nat || (n =? 160)%nat.

Fixpoint lstrip (s : string) : string :=
  match s with
  | "" => ""
  | String c s' => if isspace c then lstrip s' else s
  end.

Fixpoint rstrip (s : string) : string :=
  match s with
  | "" => ""
  | String c s' =>
      let r := rstrip s' in
      if String.eqb r "" && isspace c then "" else String c r
  end.

(** [s.strip()] *)
Definition strip (s : string) : string := lstrip (rstrip s).

(** [s.rstrip(c)] for a one-character argument. *)
Fixpoint rstrip_char (ch : ascii) (s : string) : string :=
  match s with
  | "" => ""
  | String c s' =>
      let r := rstrip_char ch s' in
      if String.eqb r "" && char_eqb c ch then "" else String c r
  end.

(** [s.startswith(p)] *)
Fixpoint startswith (s p : string) {struct p} : bool :=
  match p, s with
  | "", _ => true
  | String b p', String a s' => char_eqb a b && startswith s' p'
  | String _ _, "" => false
  end.

(** [s.endswith(p)]: some tail of [s] is [p]. *)
Fixpoint endswith (s p : string) : bool :=
  String.eqb s p
  || match s with
     | "" => false
     | String _ s' => endswith s' p
     end.

(** [c in s] for a character [c]. *)
Fixpoint contains_char (ch : ascii) (s : string) : bool :=
  match s with
  | "" => false
  | String c s' => char_eqb c ch || contains_char ch s'
  end.

(** [s.find(c)]: the first index of [c], or -1. *)
Fixpoint find_from (ch : ascii) (s : string) (i : Z) : Z :=
  match s with
  | "" => (-1)%Z
  | String c s' => if char_eqb c ch then i else find_from ch s' (i + 1)%Z
  end.

Definition find (ch : ascii) (s : string) : Z := find_from ch s 0%Z.

(** [s.rfind(c)]: the last index of [c], or -1. *)
Fixpoint rfind_from (ch : ascii) (s : string) (i : Z) (last : Z) : Z :=
  match s with
  | "" => last
  | String c s' =>
      rfind_from ch s' (i + 1)%Z (if char_eqb c ch then i else last)
  end.

Definition rfind (ch : ascii) (s : string) : Z := rfind_from ch s 0%Z (-1)%Z.

Fixpoint drop (n : nat) (s : string) : string :=
  match n, s with
  | O, _ => s
  | S n', String _ s' => drop n' s'
  | S _, "" => ""
  end.

Fixpoint take (n : nat) (s : string) : string :=
  match n, s with
  | S n', String c s' => String c (take n' s')
  | _, _ => ""
  end.

Definition len (s : string) : Z := Z.of_nat (String.length s).

(** A slice bound as Python normalises it: negative bounds count from
    the end, and everything is clamped to [0, len]. *)
Definition clamp_index (s : string) (i : Z) : nat :=
  let i' := if (i <? 0)%Z then (i + len s)%Z else i in
  Z.to_nat (Z.min (Z.max i' 0) (len s)).

(** [s[lo:hi]] *)
Definition slice (s : string) (lo hi : Z) : string :=
  let l := clamp_index s lo in
  let h := clamp_index s hi in
  take (h - l) (drop l s).

(** [s[lo:]] *)
Definition slice_from (s : string) (lo : Z) : string :=
  drop (clamp_index s lo) s.

(** [s[:hi]] *)
Definition slice_to (s : string) (hi : Z) : string :=
  take (clamp_index s hi) s.

(** [s.split(c)] for a one-character separator: never the empty list. *)
Fixpoint split (sep : ascii) (s : string) : list string :=
  match s with
  | "" => [""]
  | String c s' =>
      if char_eqb c sep then "" :: split sep s'
      else match split sep s' with
           | h :: t => String c h :: t
           | [] => [String c ""]
           end
  end.

(** [sep.join(l)] *)
Fixpoint join (sep : string) (l : list string) : string :=
  match l with
  | [] => ""
  | [x] => x
  | x :: rest => x +:+ sep +:+ join sep rest
  end.

Definition lower_char (c : ascii) : ascii :=
  let n := nat_of_ascii c in
  if ((65 <=? n)%nat && (n <=? 90)%nat)
     || ((192 <=? n)%nat && (n <=? 222)%nat && negb (n =? 215)%nat)
  then chr (n + 32) else c.

(** [s.lower()] *)
Fixpoint lower (s : string) : string :=
  match s with
  | "" => ""
  | String c s' => String (lower_char c) (lower s')
  end.

(** [str(n)] for a non-negative integer. *)
Definition of_nat (n : nat) : string :=
  NilEmpty.string_of_uint (Nat.to_uint n).

Definition nl : string := String (chr 10) "".

End PyStr.

(** ** [posixpath] *)

Module PosixPath.
Import PyStr.

Definition sep : ascii := "/"%char.
Definition sep_str : string := "/".

(** [os.path.isabs] *)
Definition isabs (p : string) : bool := startswith p sep_str.

(** [os.path.basename]: whatever follows the last slash. *)
Definition basename (p : string) : string :=
  slice_from p (rfind sep p + 1).

(** [os.path.dirname] *)
Definition dirname (p : string) : string :=
  let head := slice_to p (rfind sep p + 1) in
  if negb (String.eqb head "") && negb (String.eqb (rstrip_char sep head) "")
  then rstrip_char sep head else head.

(** [os.path.join(a, b)] *)
Definition join (a b : string) : string :=
  if startswith b sep_str then b
  else if String.eqb a "" || endswith a sep_str then a +:+ b
  else a +:+ sep_str +:+ b.

(** The loop of [os.path.normpath] over the components. *)
Fixpoint norm_comps (initial_slashes : nat) (new_comps : list string)
    (comps : list string) : list string :=
  match comps with
  | [] => new_comps
  | comp :: rest =>
      if String.eqb comp "" || String.eqb comp "." then
        norm_comps initial_slashes new_comps rest
      else if negb (String.eqb comp "..")
              || ((initial_slashes =? 0)%nat && (length new_comps =? 0)%nat)
              || match last new_comps with
                 | Some l => String.eqb l ".."
                 | None => false
                 end
      then norm_comps initial_slashes (new_comps ++ [comp]) rest
      else norm_comps initial_slashes (removelast new_comps) rest
  end.

(** [os.path.normpath] *)
Definition normpath (path : string) : string :=
  if String.eqb path "" then "."
  else
    let initial_slashes :=
      if startswith path "/" then
        if startswith path "//" && negb (startswith path "///") then 2
        else 1
      else 0 in
    let comps := norm_comps initial_slashes [] (split sep path) in
    let body := PyStr.join sep_str comps in
    let path' :=
      match initial_slashes with
      | 0 => body
      | 1 => "/" +:+ body
      | _ => "//" +:+ body
      end in
    if String.eqb path' "" then "." else path'.

(** What [os.path.expanduser] reads from the process: [$HOME] and the
    password database. *)
Record user_env := {
  env_home : string;
  env_pw_dir : string -> option string
}.

(** [os.path.expanduser] *)
Definition expanduser (env : user_env) (path : string) : string :=
  if negb (startswith path "~") then path
  else
    let i0 := find_from sep (drop 1 path) 1 in
    let i := if (i0 <? 0)%Z then len path else i0 in
    let userhome :=
      if (i =? 1)%Z then Some (env_home env)
      else env_pw_dir env (slice path 1 i) in
    match userhome with
    | None => path
    | Some h =>
        let r := rstrip_char sep h +:+ slice_from path i in
        if String.eqb r "" then "/" else r
    end.

(** [os.path.abspath] for a process whose working directory is [cwd]. *)
Definition abspath (cwd : string) (path : string) : string :=
  normpath (if isabs path then path else join cwd path).

End PosixPath.

(** ** Python exceptions and results *)

Module Py.

(** An instance of a subclass of [Exception]: its class name and its
    [str()]. *)
Record exn := Exn { exn_class : string; exn_str : string }.

Inductive result (A : Type) : Type :=
| Ok (a : A)
| Raise (e : exn).
Global Arguments Ok {A} a.
Global Arguments Raise {A} e.

Definition os_error (cls : string) (errno : nat) (what path : string) : exn :=
  Exn cls ("[Errno " +:+ PyStr.of_nat errno +:+ "] " +:+ what +:+ ": '"
           +:+ path +:+ "'").

Definition FileNotFoundError (path : string) : exn :=
  os_error "FileNotFoundError" 2 "No such file or directory" path.
Definition IsADirectoryError (path : string) : exn :=
  os_error "IsADirectoryError" 21 "Is a directory" path.
Definition NotADirectoryError (path : string) : exn :=
  os_error "NotADirectoryError" 20 "Not a directory" path.
Definition FileExistsError (path : string) : exn :=
  os_error "FileExistsError" 17 "File exists" path.
Definition BusyError (path : string) : exn :=
  os_error "OSError" 16 "Device or resource busy" path.
Definition InvalidArgumentError (path : string) : exn :=
  os_error "OSError" 22 "Invalid argument" path.
Definition NotEmptyError (path : string) : exn :=
  os_error "OSError" 39 "Directory not empty" path.
Definition PermissionError (path : string) : exn :=
  os_error "PermissionError" 1 "Operation not permitted" path.
Definition ShutilError (msg : string) : exn := Exn "Error" msg.
Definition SpecialFileError (path : string) : exn :=
  Exn "SpecialFileError" ("`" +:+ path +:+ "` is a named pipe").

(** The two file names in the [str()] of an error of [os.rename]:
    between the quotes stands ['src' -> 'dst']. *)
Definition from_to (src dst : string) : string :=
  src +:+ "' -> '" +:+ dst.

End Py.

(** ** The file system *)

Module Fs.
Import PyStr Py.

(** The nodes of the tree.  A regular file has its content and the
    immutable attribute ([chattr +i]): the system refuses to unlink, to
    rename and to write a file that carries it.  A named pipe stands
    for the nodes that exist and are neither regular files nor
    directories.  There are no symbolic links: a name is the node
    itself, and [os.path.islink] is false of every path. *)
Inductive node : Type :=
| File (data : string) (immutable : bool)
| Dir
| Fifo.

Global Instance node_eq_dec : EqDecision node.
Proof. solve_decision. Defined.

(** A node is named by the components of its absolute path; the root is
    the empty list. *)
Abbreviation key := (list string).

(** The tree below the root, and the working directory of the
    process. *)
Record filesys := FileSys {
  tree : gmap key node;
  cwd : key
}.

Definition node_at (fs : filesys) (k : key) : option node :=
  match k with
  | [] => Some Dir
  | _ => tree fs !! k
  end.

Definition is_dir_node (o : option node) : bool :=
  match o with Some Dir => true | _ => false end.

Definition is_file_node (o : option node) : bool :=
  match o with Some (File _ _) => true | _ => false end.

Definition is_fifo_node (o : option node) : bool :=
  match o with Some Fifo => true | _ => false end.

Definition is_immutable_node (o : option node) : bool :=
  match o with Some (File _ true) => true | _ => false end.

(** One step of path resolution from the directory [cur]. *)
Definition step (cur : key) (c : string) : key :=
  if String.eqb c "" || String.eqb c "." then cur
  else if String.eqb c ".." then removelast cur
  else cur ++ [c].

(** Resolution of a component list: every directory stepped out of has
    to be a directory; the node reached need not exist. *)
Fixpoint walk (fs : filesys) (cur : key) (comps : list string) : option key :=
  match comps with
  | [] => Some cur
  | c :: rest =>
      if is_dir_node (node_at fs cur) then walk fs (step cur c) rest
      else None
  end.

Definition resolve (fs : filesys) (p : string) : option key :=
  if String.eqb p "" then None
  else walk fs (if PosixPath.isabs p then [] else cwd fs)
               (split PosixPath.sep p).

Definition stat (fs : filesys) (p : string) : option node :=
  match resolve fs p with
  | Some k => node_at fs k
  | None => None
  end.

(** Whether a path that leads nowhere leads through a node that is
    there and is no directory. *)
Fixpoint blocked (fs : filesys) (cur : key) (comps : list string) : bool :=
  match comps with
  | [] => false
  | c :: rest =>
      match node_at fs cur with
      | Some Dir => blocked fs (step cur c) rest
      | Some _ => true
      | None => false
      end
  end.

(** The error of a system call on a path that leads nowhere: ENOTDIR
    when the path leads through a node that is no directory, ENOENT
    when a node is missing.  [names] is what the error names. *)
Definition no_entry (fs : filesys) (p names : string) : exn :=
  if blocked fs (if PosixPath.isabs p then [] else cwd fs)
             (split PosixPath.sep p)
  then NotADirectoryError names else FileNotFoundError names.

(** [os.path.exists], [os.path.isfile], [os.path.isdir],
    [os.path.islink] *)
Definition exists_ (fs : filesys) (p : string) : bool :=
  match stat fs p with Some _ => true | None => false end.
Definition isfile (fs : filesys) (p : string) : bool := is_file_node (stat fs p).
Definition isdir (fs : filesys) (p : string) : bool := is_dir_node (stat fs p).
Definition islink (fs : filesys) (p : string) : bool := false.

(** [under k q]: [q] lies in the subtree rooted at [k]; the result is
    the path from [k] down to [q]. *)
Fixpoint under (k q : key) : option key :=
  match k, q with
  | [], _ => Some q
  | a :: k', b :: q' => if String.eqb a b then under k' q' else None
  | _ :: _, [] => None
  end.

Definition within (k q : key) : bool :=
  match under k q with Some _ => true | None => false end.

Definition strictly_within (k q : key) : bool :=
  match under k q with Some (_ :: _) => true | _ => false end.

Definition remove_subtree (k : key) (t : gmap key node) : gmap key node :=
  filter (fun e => within k e.1 = false) t.

Definition remove_below (k : key) (t : gmap key node) : gmap key node :=
  filter (fun e => strictly_within k e.1 = false) t.

(** The subtree of [t] rooted at [src], with keys relative to [src]. *)
Definition subtree (src : key) (t : gmap key node) : gmap key node :=
  list_to_map (omap (fun e => suf ← under src e.1; Some (suf, e.2))
                    (map_to_list t)).

(** [t] with a copy of the subtree [sub] placed at [dst]. *)
Definition graft (sub : gmap key node) (dst : key) (t : gmap key node)
    : gmap key node :=
  kmap (app dst) sub ∪ remove_subtree dst t.

Definition dir_is_empty (k : key) (t : gmap key node) : bool :=
  bool_decide (filter (fun e => strictly_within k e.1 = true) t = ∅).

Definition set_tree (fs : filesys) (t : gmap key node) : filesys :=
  FileSys t (cwd fs).

(** The last component a path names, trailing slashes aside. *)
Definition final_component (p : string) : option string :=
  last (split PosixPath.sep (rstrip_char PosixPath.sep p)).

Definition trailing_slash (p : string) : bool :=
  negb (String.eqb (rstrip_char PosixPath.sep p) p).

(** The node the last component of a path stands for, whether or not
    slashes follow it. *)
Definition named (fs : filesys) (p : string) : option key :=
  resolve fs (if String.eqb (rstrip_char PosixPath.sep p) "" then p
              else rstrip_char PosixPath.sep p).

(** The last component a path names is "." or "..": the directory
    cannot be removed or renamed through such a name. *)
Definition final_dot (p : string) : bool :=
  match final_component p with
  | Some c => String.eqb c "." || String.eqb c ".."
  | None => false
  end.

(** [os.remove] *)
Definition os_remove (fs : filesys) (p : string) : filesys * result unit :=
  match resolve fs p with
  | None => (fs, Raise (no_entry fs p p))
  | Some k =>
      match node_at fs k with
      | None => (fs, Raise (FileNotFoundError p))
      | Some Dir => (fs, Raise (IsADirectoryError p))
      | Some (File _ true) => (fs, Raise (PermissionError p))
      | Some (File _ false) | Some Fifo =>
          (set_tree fs (delete k (tree fs)), Ok tt)
      end
  end.

(** The order in which [shutil.rmtree] comes to remove two entries:
    what is in a directory goes before the directory, and the entries
    of one directory go by name.  ([os.scandir] lists a directory in an
    order of the file system's own; the order matters only when a
    removal is refused.) *)
Fixpoint removed_before (a b : key) : bool :=
  match a, b with
  | x :: a', y :: b' =>
      if String.eqb x y then removed_before a' b' else String.ltb x y
  | _ :: _, [] => true
  | [], _ => false
  end.

(** The immutable files in the subtree at [k], and the one
    [shutil.rmtree] comes to first. *)
Definition immutable_within (k : key) (t : gmap key node) : list key :=
  List.filter (fun q => within k q && is_immutable_node (t !! q))
              (map fst (map_to_list t)).

Definition first_refused (k : key) (t : gmap key node) : option key :=
  foldr (fun q o =>
           match o with
           | Some b => if removed_before b q then Some b else Some q
           | None => Some q
           end)
        None (immutable_within k t).

(** What is left of [t] when the removal of the subtree at [k] stops
    at [q]. *)
Definition remove_until (k q : key) (t : gmap key node) : gmap key node :=
  filter (fun e => within k e.1 && removed_before e.1 q = false) t.

(** The error of the [os.rmdir] that ends [shutil.rmtree] on a
    directory that cannot go: the root, or one named through "." or
    "..".  By then a directory named before a final ".." is gone. *)
Definition rmdir_refused (p : string) : exn :=
  match final_component p with
  | Some c =>
      if String.eqb c "." then InvalidArgumentError p
      else if String.eqb c ".." then FileNotFoundError p
      else BusyError p
  | None => BusyError p
  end.

(** [shutil.rmtree] on a directory: the content goes first, the
    directory itself last.  An immutable file stops the removal with
    the error of its [os.unlink], which names the entry alone.  The
    root, and a directory named through "." or "..", cannot be removed,
    which is found out after its content is gone.  (The code calls
    [shutil.rmtree] on directories only.) *)
Definition shutil_rmtree (fs : filesys) (p : string) : filesys * result unit :=
  match resolve fs p with
  | None => (fs, Raise (no_entry fs p p))
  | Some k =>
      match node_at fs k with
      | None => (fs, Raise (FileNotFoundError p))
      | Some (File _ _) | Some Fifo => (fs, Raise (NotADirectoryError p))
      | Some Dir =>
          match first_refused k (tree fs) with
          | Some q =>
              (set_tree fs (remove_until k q (tree fs)),
               Raise (PermissionError (default "" (last q))))
          | None =>
              match k with
              | [] =>
                  (set_tree fs (remove_below k (tree fs)),
                   Raise (rmdir_refused p))
              | _ :: _ =>
                  if final_dot p then
                    (set_tree fs (remove_below k (tree fs)),
                     Raise (rmdir_refused p))
                  else (set_tree fs (remove_subtree k (tree fs)), Ok tt)
              end
          end
      end
  end.

(** The subtree at [ks] moved to [kd] (which is not inside it). *)
Definition move_subtree (ks kd : key) (t : gmap key node) : gmap key node :=
  graft (subtree ks t) kd (remove_subtree ks t).

(** [os.rename] (rename(2)), with its checks in the order of the
    system call: the directories of the two names; "." and ".." and the
    root as a last component; the source; a trailing slash after what
    is no directory; a directory moved into itself, or a name moved
    onto a directory above it; the immutable attribute; the kinds of
    the two nodes. *)
Definition os_rename (fs : filesys) (src dst : string) : filesys * result unit :=
  let names := from_to src dst in
  match named fs src with
  | None =>
      (fs, Raise (no_entry fs (rstrip_char PosixPath.sep src) names))
  | Some ks =>
      match named fs dst with
      | None =>
          (fs, Raise (no_entry fs (rstrip_char PosixPath.sep dst) names))
      | Some kd =>
          if bool_decide (ks = []) || bool_decide (kd = [])
             || final_dot src || final_dot dst
          then (fs, Raise (BusyError names))
          else
            match node_at fs ks with
            | None => (fs, Raise (FileNotFoundError names))
            | Some ns =>
                if negb (is_dir_node (Some ns))
                   && (trailing_slash src || trailing_slash dst)
                then (fs, Raise (NotADirectoryError names))
                else if bool_decide (ks = kd) then (fs, Ok tt)
                else if is_dir_node (Some ns) && within ks kd
                then (fs, Raise (InvalidArgumentError names))
                else if is_dir_node (node_at fs kd) && within kd ks
                then (fs, Raise (NotEmptyError names))
                else if is_immutable_node (Some ns)
                        || is_immutable_node (node_at fs kd)
                then (fs, Raise (PermissionError names))
                else
                  let moved := set_tree fs (move_subtree ks kd (tree fs)) in
                  match ns, node_at fs kd with
                  | _, None => (moved, Ok tt)
                  | Dir, Some Dir =>
                      if dir_is_empty kd (tree fs) then (moved, Ok tt)
                      else (fs, Raise (NotEmptyError names))
                  | Dir, Some _ => (fs, Raise (NotADirectoryError names))
                  | _, Some Dir => (fs, Raise (IsADirectoryError names))
                  | _, Some _ => (moved, Ok tt)
                  end
            end
      end
  end.

(** [os.getcwd()] *)
Definition getcwd (fs : filesys) : string :=
  "/" +:+ PyStr.join "/" (cwd fs).

(** [os.path.samefile] on two paths that both exist. *)
Definition samefile (fs : filesys) (a b : string) : bool :=
  match resolve fs a, resolve fs b with
  | Some ka, Some kb =>
      bool_decide (ka = kb) && exists_ fs a
  | _, _ => false
  end.

(** [shutil.copy2]: the content of a regular file is written to [dst],
    or into [dst] when that is a directory.  A named pipe is refused on
    either side; the file written does not carry the immutable
    attribute.  A target that ends in a slash and is no directory
    cannot be opened for writing, which [shutil.copyfile] reports in
    words of its own. *)
Definition shutil_copy2 (fs : filesys) (src dst : string)
    : filesys * result unit :=
  let dst := if isdir fs dst
             then PosixPath.join dst (PosixPath.basename src) else dst in
  if samefile fs src dst then
    (fs, Raise (Exn "SameFileError"
                    ("'" +:+ src +:+ "' and '" +:+ dst +:+ "' are the same file")))
  else if is_fifo_node (stat fs src) then (fs, Raise (SpecialFileError src))
  else if is_fifo_node (stat fs dst) then (fs, Raise (SpecialFileError dst))
  else
    match stat fs src with
    | None => (fs, Raise (no_entry fs src src))
    | Some Dir => (fs, Raise (IsADirectoryError src))
    | Some Fifo => (fs, Raise (SpecialFileError src))
    | Some (File data _) =>
        if trailing_slash dst && negb (isdir fs dst) then
          match named fs dst with
          | Some _ =>
              (fs, Raise (Exn "FileNotFoundError"
                              ("Directory does not exist: " +:+ dst)))
          | None => (fs, Raise (no_entry fs dst dst))
          end
        else
          match resolve fs dst with
          | None => (fs, Raise (no_entry fs dst dst))
          | Some kd =>
              match node_at fs kd with
              | Some Dir => (fs, Raise (IsADirectoryError dst))
              | Some (File _ true) => (fs, Raise (PermissionError dst))
              | _ => (set_tree fs (<[kd := File data false]> (tree fs)), Ok tt)
              end
          end
    end.

(** The walk of [os.makedirs]: missing directories on the way are
    created.  When the walk meets a node that is no directory, it
    stops with the components it has not come to. *)
Fixpoint walk_mk (t : gmap key node) (cur : key) (comps : list string)
    : gmap key node * (key + list string) :=
  match comps with
  | [] => (t, inl cur)
  | c :: rest =>
      match cur, t !! cur with
      | [], _ | _, Some Dir => walk_mk t (step cur c) rest
      | _, None => walk_mk (<[cur := Dir]> t) (step cur c) rest
      | _, Some _ => (t, inr rest)
      end
  end.

(** [os.makedirs(p)] with [exist_ok=False].  The error for a node that
    is no directory names the path up to the component after it.  A
    path that ends in "." is done with when the directory before the
    "." was missing and has been made. *)
Definition os_makedirs (fs : filesys) (p : string) : filesys * result unit :=
  let p' := rstrip_char PosixPath.sep p in
  let comps := split PosixPath.sep p' in
  if String.eqb p "" then (fs, Raise (FileNotFoundError p))
  else if exists_ fs p || String.eqb p' "" then (fs, Raise (FileExistsError p))
  else
    match walk_mk (tree fs) (if PosixPath.isabs p' then [] else cwd fs)
                  comps with
    | (t, inr rest) =>
        (set_tree fs t,
         Raise (NotADirectoryError
                  (PyStr.join PosixPath.sep_str
                              (firstn (length comps - length rest) comps))))
    | (t, inl k) =>
        match k, t !! k with
        | _ :: _, None => (set_tree fs (<[k := Dir]> t), Ok tt)
        | _, _ =>
            if String.eqb (PosixPath.basename p') "."
               && negb (String.eqb (PosixPath.dirname p') "")
               && negb (exists_ fs (PosixPath.dirname p'))
            then (set_tree fs t, Ok tt)
            else (set_tree fs t, Raise (FileExistsError p))
        end
    end.

(** What [shutil.copytree] makes of a node of the source: a regular
    file is copied without the immutable attribute, and a named pipe is
    not copied. *)
Definition duplicate (n : node) : option node :=
  match n with
  | File data _ => Some (File data false)
  | Dir => Some Dir
  | Fifo => None
  end.

(** The order in which [shutil.copytree] comes to two entries that do
    not lie one in the other: by name. *)
Definition met_before (a b : key) : Prop := removed_before b a = false.

Global Instance met_before_dec a b : Decision (met_before a b).
Proof. unfold met_before. apply _. Defined.

(** The named pipes below [ks], by their paths from [ks], in the order
    in which [shutil.copytree] meets them. *)
Definition pipes_within (ks : key) (t : gmap key node) : list key :=
  merge_sort met_before
             (map fst (map_to_list (filter (fun e => e.2 = Fifo)
                                           (subtree ks t)))).

(** The [str()] of the [shutil.Error] that [shutil.copytree] raises at
    its end for the named pipes it met, for names without quotes and
    backslashes. *)
Definition pipe_errors (src dst : string) (pipes : list key) : string :=
  "[" +:+ PyStr.join ", "
            (map (fun suf =>
                    let srcname := foldl PosixPath.join src suf in
                    let dstname := foldl PosixPath.join dst suf in
                    "('" +:+ srcname +:+ "', '" +:+ dstname +:+ "', '`"
                    +:+ srcname +:+ "` is a named pipe')")
                 pipes)
      +:+ "]".

(** [shutil.copytree]: the entries of [src] are listed, [dst] is made
    with [os.makedirs], and the entries are copied one by one; the
    named pipes among them are left out and reported when the rest has
    been copied.  When [dst] lies below a subdirectory that [src]
    already had, the copy keeps descending into what it has just
    written until the length of the path or the depth of the recursion
    stops it with an error; what it leaves behind at that point is not
    modelled beyond the directories [os.makedirs] made. *)
Definition shutil_copytree (fs : filesys) (src dst : string)
    : filesys * result unit :=
  match resolve fs src with
  | None => (fs, Raise (no_entry fs src src))
  | Some ks =>
      match node_at fs ks with
      | None => (fs, Raise (FileNotFoundError src))
      | Some (File _ _) | Some Fifo => (fs, Raise (NotADirectoryError src))
      | Some Dir =>
          match os_makedirs fs dst with
          | (fs1, Raise e) => (fs1, Raise e)
          | (fs1, Ok _) =>
              match resolve fs1 dst with
              | None => (fs1, Raise (FileNotFoundError dst))
              | Some kd =>
                  let copy :=
                    set_tree fs1 (graft (omap duplicate (subtree ks (tree fs)))
                                        kd (tree fs1)) in
                  let pipes := pipes_within ks (tree fs) in
                  let done :=
                    if bool_decide (pipes = []) then (copy, Ok tt)
                    else (copy, Raise (ShutilError (pipe_errors src dst pipes))) in
                  match under ks kd with
                  | Some (x :: _ :: _) =>
                      if is_dir_node (node_at fs (ks ++ [x]))
                      then (fs1, Raise (Exn "OSError"
                               ("[Errno 36] File name too long: '" +:+ dst +:+ "'")))
                      else done
                  | _ => done
                  end
              end
          end
      end
  end.

(** [shutil._destinsrc] *)
Definition destinsrc (fs : filesys) (src dst : string) : bool :=
  let src := PosixPath.abspath (getcwd fs) src in
  let dst := PosixPath.abspath (getcwd fs) dst in
  let src := if endswith src "/" then src else src +:+ "/" in
  let dst := if endswith dst "/" then dst else dst +:+ "/" in
  startswith dst src.

(** [shutil.move] *)
Definition shutil_move (fs : filesys) (src dst : string)
    : filesys * result unit :=
  let into_dir := isdir fs dst in
  if into_dir && samefile fs src dst then os_rename fs src dst
  else
    let real_dst :=
      if into_dir
      then PosixPath.join dst (PosixPath.basename (rstrip_char PosixPath.sep src))
      else dst in
    if into_dir && exists_ fs real_dst then
      (fs, Raise (ShutilError ("Destination path '" +:+ real_dst
                               +:+ "' already exists")))
    else
      match os_rename fs src real_dst with
      | (fs', Ok _) => (fs', Ok tt)
      | (_, Raise _) =>
          if isdir fs src then
            if destinsrc fs src dst then
              (fs, Raise (ShutilError ("Cannot move a directory '" +:+ src
                                       +:+ "' into itself '" +:+ dst +:+ "'.")))
            else
              match shutil_copytree fs src real_dst with
              | (fs1, Ok _) => shutil_rmtree fs1 src
              | (fs1, Raise e) => (fs1, Raise e)
              end
          else
            match shutil_copy2 fs src real_dst with
            | (fs1, Ok _) => os_remove fs1 src
            | (fs1, Raise e) => (fs1, Raise e)
            end
      end.

End Fs.

(** ** [automanager/core/security_service.py] *)

Module SecurityService.

(** A confirmation dialog put on the screen. *)
Record dialog := Dialog {
  dlg_title : string;
  dlg_message : string;
  dlg_informative_text : string
}.

(** What the services act on: the file system, and the dialogs shown
    so far. *)
Record world := World {
  fs : Fs.filesys;
  dialogs : list dialog
}.

Definition set_fs (w : world) (f : Fs.filesys) : world :=
  World f (dialogs w).

(** The person at the screen: the answer to a dialog ([true] for Yes)
    may depend on everything shown up to and including it. *)
Definition user := list dialog -> bool.

(** [SecurityService.request_confirmation] *)
Definition request_confirmation (u : user) (w : world)
    (title message informative_text : string) : world * bool :=
  let shown := dialogs w ++ [Dialog title message informative_text] in
  (World (fs w) shown, u shown).

(** A user who clicks Yes every time. *)
Definition always_yes : user := fun _ => true.

End SecurityService.

(** ** [automanager/core/file_operation_service.py]

    Calls to the logger are left out: they change nothing the functions
    read or return. *)

Module FileOperationService.
Import PyStr Py Fs SecurityService.

(** [self.clipboard]: the empty list, or the dictionary
    [{'action': ..., 'paths': ...}]. *)
Inductive clipboard_t : Type :=
| ClipEmptyList
| ClipDict (action : string) (paths : list string).

(** [bool(self.clipboard)] *)
Definition clipboard_truthy (c : clipboard_t) : bool :=
  match c with ClipEmptyList => false | ClipDict _ _ => true end.

Record service := Service { clipboard : clipboard_t }.

(** [FileOperationService.__init__] *)
Definition init : service := Service ClipEmptyList.

Section WithUser.
Variable u : user.

(** The confirmation text of [delete_items]: the first five base
    names, then how many more there are. *)
Fixpoint confirm_lines (n : nat) (i : nat) (paths : list string) : string :=
  match paths with
  | [] => ""
  | path_item :: rest =>
      if (i <? 5)%nat then
        "- " +:+ PosixPath.basename path_item +:+ nl
        +:+ confirm_lines n (S i) rest
      else "...and " +:+ of_nat (n - 5) +:+ " more."
  end.

Definition delete_confirm_msg (paths : list string) : string :=
  "Are you sure you want to permanently delete these "
  +:+ of_nat (length paths) +:+ " item(s)?" +:+ nl
  +:+ confirm_lines (length paths) 0 paths.

(** One turn of the deletion loop. *)
Definition delete_one (f : filesys) (path_item : string)
    (deleted_count : nat) (errors : list string)
    : filesys * nat * list string :=
  if isfile f path_item || islink f path_item then
    match os_remove f path_item with
    | (f', Ok _) => (f', S deleted_count, errors)
    | (f', Raise e) =>
        (f', deleted_count,
         errors ++ ["Error deleting " +:+ PosixPath.basename path_item
                    +:+ ": " +:+ exn_str e])
    end
  else if isdir f path_item then
    match shutil_rmtree f path_item with
    | (f', Ok _) => (f', S deleted_count, errors)
    | (f', Raise e) =>
        (f', deleted_count,
         errors ++ ["Error deleting " +:+ PosixPath.basename path_item
                    +:+ ": " +:+ exn_str e])
    end
  else
    (f, deleted_count,
     errors ++ ["Not a file/directory: " +:+ PosixPath.basename path_item]).

Fixpoint delete_loop (f : filesys) (paths : list string)
    (deleted_count : nat) (errors : list string)
    : filesys * nat * list string :=
  match paths with
  | [] => (f, deleted_count, errors)
  | path_item :: rest =>
      let '(f', deleted_count', errors') :=
        delete_one f path_item deleted_count errors in
      delete_loop f' rest deleted_count' errors'
  end.

(** The summary every batch operation ends with. *)
Definition with_errors (msg : string) (errors : list string) : string :=
  match errors with
  | [] => msg
  | _ => msg +:+ nl +:+ "Errors occurred:" +:+ nl +:+ PyStr.join nl errors
  end.

Definition is_nil {A} (l : list A) : bool :=
  match l with [] => true | _ => false end.

(** [FileOperationService.delete_items] *)
Definition delete_items (w : world) (paths : list string)
    : world * (bool * string) :=
  if is_nil paths then (w, (false, "No items selected for deletion."))
  else
    let '(w1, ans) :=
      request_confirmation u w "Confirm Deletion"
                           (delete_confirm_msg paths) "" in
    if negb ans then (w1, (false, "Deletion cancelled by user."))
    else
      let '(f', deleted_count, errors) := delete_loop (fs w1) paths 0 [] in
      let msg := "Successfully deleted " +:+ of_nat deleted_count
                 +:+ " item(s)." in
      (set_fs w1 f', (is_nil errors, with_errors msg errors)).

(** [FileOperationService.rename_item] *)
Definition rename_item (w : world) (old_path new_name : string)
    : world * (bool * string) :=
  if negb (exists_ (fs w) old_path) then
    (w, (false, "Source path does not exist: " +:+ old_path))
  else if String.eqb (strip new_name) "" then
    (w, (false, "New name cannot be empty."))
  else
    let old_name_base := PosixPath.basename old_path in
    if String.eqb new_name old_name_base then
      (w, (true, "No change in name."))
    else
      let dir_path := PosixPath.dirname old_path in
      let new_full_path := PosixPath.join dir_path new_name in
      if exists_ (fs w) new_full_path then
        (w, (false, "An item named '" +:+ new_name
                    +:+ "' already exists in this location."))
      else
        let '(w1, ans) :=
          request_confirmation u w "Confirm Rename"
            ("Are you sure you want to rename '" +:+ old_name_base
             +:+ "' to '" +:+ new_name +:+ "'?") "" in
        if negb ans then (w1, (false, "Rename cancelled by user."))
        else
          match os_rename (fs w1) old_path new_full_path with
          | (f', Ok _) =>
              (set_fs w1 f',
               (true, "Renamed '" +:+ old_name_base +:+ "' to '"
                      +:+ new_name +:+ "'."))
          | (f', Raise e) =>
              (set_fs w1 f', (false, "Error renaming: " +:+ exn_str e))
          end.

(** [FileOperationService.copy_to_clipboard] *)
Definition copy_to_clipboard (s : service) (paths : list string) : service :=
  if is_nil paths then Service ClipEmptyList
  else Service (ClipDict "copy" paths).

(** [FileOperationService.cut_to_clipboard] *)
Definition cut_to_clipboard (s : service) (paths : list string) : service :=
  if is_nil paths then Service ClipEmptyList
  else Service (ClipDict "cut" paths).

(** [FileOperationService.get_clipboard_status]: the value under
    ['can_paste']. *)
Definition get_clipboard_status (s : service) : bool :=
  clipboard_truthy (clipboard s).

(** The copy or move at the end of one turn of the paste loop. *)
Definition transfer (action : string) (f : filesys) (src_path dst_path : string)
    : filesys * result unit :=
  if String.eqb action "copy" then
    if isdir f src_path then shutil_copytree f src_path dst_path
    else shutil_copy2 f src_path dst_path
  else if String.eqb action "cut" then shutil_move f src_path dst_path
  else (f, Ok tt).

(** The accumulators of the paste loop. *)
Record paste_acc := PasteAcc {
  acc_world : world;
  success_count : nat;
  errors : list string
}.

Definition finish_paste_one (action : string) (acc : paste_acc)
    (src_path base_name dst_path : string) : paste_acc :=
  let w := acc_world acc in
  match transfer action (fs w) src_path dst_path with
  | (f', Ok _) => PasteAcc (set_fs w f') (S (success_count acc)) (errors acc)
  | (f', Raise e) =>
      PasteAcc (set_fs w f') (success_count acc)
               (errors acc ++ ["Error " +:+ action +:+ "ing " +:+ base_name
                               +:+ ": " +:+ exn_str e])
  end.

(** One turn of the paste loop. *)
Definition paste_one (action destination_dir : string) (acc : paste_acc)
    (src_path : string) : paste_acc :=
  let w := acc_world acc in
  if negb (exists_ (fs w) src_path) then
    PasteAcc w (success_count acc)
             (errors acc ++ ["Source item no longer exists: "
                             +:+ PosixPath.basename src_path])
  else
    let base_name := PosixPath.basename src_path in
    let dst_path := PosixPath.join destination_dir base_name in
    if exists_ (fs w) dst_path then
      let '(w1, ans) :=
        request_confirmation u w "Confirm Overwrite"
          ("'" +:+ base_name
           +:+ "' already exists in the destination. Overwrite?") "" in
      if negb ans then
        PasteAcc w1 (success_count acc)
                 (errors acc ++ ["Skipped overwrite of " +:+ base_name])
      else
        match (if isdir (fs w1) dst_path
               then shutil_rmtree (fs w1) dst_path
               else os_remove (fs w1) dst_path) with
        | (f', Raise e) =>
            PasteAcc (set_fs w1 f') (success_count acc)
                     (errors acc ++ ["Error removing existing '" +:+ base_name
                                     +:+ "' for overwrite: " +:+ exn_str e])
        | (f', Ok _) =>
            finish_paste_one action
              (PasteAcc (set_fs w1 f') (success_count acc) (errors acc))
              src_path base_name dst_path
        end
    else finish_paste_one action acc src_path base_name dst_path.

Definition paste_loop (action destination_dir : string) (acc : paste_acc)
    (source_paths : list string) : paste_acc :=
  fold_left (paste_one action destination_dir) source_paths acc.

(** [FileOperationService.paste_from_clipboard] *)
Definition paste_from_clipboard (s : service) (w : world)
    (destination_dir : string) : service * world * (bool * string) :=
  match clipboard s with
  | ClipEmptyList => (s, w, (false, "Clipboard is empty."))
  | ClipDict action source_paths =>
      if negb (isdir (fs w) destination_dir) then
        (s, w, (false, "Destination is not a valid directory: "
                       +:+ destination_dir))
      else if is_nil source_paths then
        (s, w, (false, "No source paths in clipboard."))
      else
        let acc := paste_loop action destination_dir (PasteAcc w 0 [])
                              source_paths in
        let ok := is_nil (errors acc) || (0 <? success_count acc)%nat in
        let s' := if String.eqb action "cut" && ok
                  then Service ClipEmptyList else s in
        let msg := "Successfully " +:+ action +:+ "ed "
                   +:+ of_nat (success_count acc) +:+ " of "
                   +:+ of_nat (length source_paths) +:+ " item(s)." in
        (s', acc_world acc, (ok, with_errors msg (errors acc)))
  end.

End WithUser.

End FileOperationService.

(** ** [shlex.split] (POSIX mode, no comment characters, split on
    white space only) *)

Module Shlex.
Import PyStr Py.

Inductive lex_state : Type :=
| InSpace                               (* state ' ' *)
| InWord                                (* state 'a' *)
| InQuote (q : ascii)                   (* state is a quote character *)
| InEscape (escapedstate : option ascii) (* state is the backslash;
                                            [None] stands for 'a' *).

Definition is_whitespace (c : ascii) : bool :=
  contains_char c (String " " (String (chr 9) (String (chr 13) (String (chr 10) "")))).

Definition is_quote (c : ascii) : bool :=
  char_eqb c "'"%char || char_eqb c (chr 34).

Definition is_escape (c : ascii) : bool := char_eqb c "\"%char.

Definition snoc (s : string) (c : ascii) : string := s +:+ String c "".

(** The token loop; [token] and [quoted] belong to the token being
    read, [acc] holds the tokens already returned. *)
Fixpoint lex (st : lex_state) (token : string) (quoted : bool)
    (input : string) (acc : list string) : result (list string) :=
  match input with
  | "" =>
      match st with
      | InSpace => Ok acc
      | InWord =>
          if negb (String.eqb token "") || quoted then Ok (acc ++ [token])
          else Ok acc
      | InQuote _ => Raise (Exn "ValueError" "No closing quotation")
      | InEscape _ => Raise (Exn "ValueError" "No escaped character")
      end
  | String c rest =>
      match st with
      | InSpace =>
          if is_whitespace c then lex InSpace token quoted rest acc
          else if is_escape c then lex (InEscape None) token quoted rest acc
          else if is_quote c then lex (InQuote c) token quoted rest acc
          else lex InWord (String c "") quoted rest acc
      | InQuote q =>
          if char_eqb c q then lex InWord token true rest acc
          else if is_escape c && char_eqb q (chr 34)
          then lex (InEscape (Some q)) token true rest acc
          else lex (InQuote q) (snoc token c) true rest acc
      | InEscape es =>
          let token :=
            match es with
            | Some q =>
                if negb (is_escape c) && negb (char_eqb c q)
                then snoc token "\"%char else token
            | None => token
            end in
          lex (match es with Some q => InQuote q | None => InWord end)
              (snoc token c) quoted rest acc
      | InWord =>
          if is_whitespace c then
            if negb (String.eqb token "") || quoted
            then lex InSpace "" false rest (acc ++ [token])
            else lex InSpace token quoted rest acc
          else if is_quote c then lex (InQuote c) token quoted rest acc
          else if is_escape c then lex (InEscape None) token quoted rest acc
          else lex InWord (snoc token c) quoted rest acc
      end
  end.

Definition split (s : string) : result (list string) :=
  lex InSpace "" false s [].

End Shlex.

(** ** [file_operations.py] *)

Module FileOperations.
Import PyStr Py Fs.

(** The file system, and the [operation_completed] signals emitted so
    far. *)
Record sys := Sys {
  sys_fs : filesys;
  signals : list (bool * string)
}.

Definition emit (f : filesys) (s : sys) (ok : bool) (msg : string) : sys :=
  Sys f (signals s ++ [(ok, msg)]).

(** The tail every method shares: the signal for success or for the
    exception caught, and the Boolean returned. *)
Definition completed (s : sys) (r : filesys * result unit)
    (done failed : string) : sys * bool :=
  match r with
  | (f, Ok _) => (emit f s true done, true)
  | (f, Raise e) => (emit f s false (failed +:+ exn_str e), false)
  end.

(** [FileOperations.delete_item] *)
Definition delete_item (s : sys) (path : string) : sys * bool :=
  if isdir (sys_fs s) path then
    completed s (shutil_rmtree (sys_fs s) path)
              ("Deleted directory: " +:+ PosixPath.basename path)
              "Failed to delete: "
  else
    completed s (os_remove (sys_fs s) path)
              ("Deleted file: " +:+ PosixPath.basename path)
              "Failed to delete: ".

(** [FileOperations.copy_item] *)
Definition copy_item (s : sys) (source destination : string) : sys * bool :=
  if isdir (sys_fs s) source then
    completed s (shutil_copytree (sys_fs s) source destination)
              ("Copied directory to: " +:+ PosixPath.basename destination)
              "Failed to copy: "
  else
    completed s (shutil_copy2 (sys_fs s) source destination)
              ("Copied file to: " +:+ PosixPath.basename destination)
              "Failed to copy: ".

(** [FileOperations.move_item] *)
Definition move_item (s : sys) (source destination : string) : sys * bool :=
  completed s (shutil_move (sys_fs s) source destination)
            ("Moved to: " +:+ PosixPath.basename destination)
            "Failed to move: ".

End FileOperations.

(** ** [commands.py] *)

Module CommandInterpreter.
Import PyStr Py Fs FileOperations.

(** The attributes of a [CommandInterpreter] that its methods read or
    assign. *)
Record interp := Interp {
  current_directory : string;
  history : list string;
  history_position : nat
}.

(** What a command returns: [(success, message, output_lines)]. *)
Definition reply : Type := bool * string * list string.

(** A command handler: it runs on the interpreter and the system, and
    either returns a reply or raises. *)
Definition handler : Type :=
  interp -> sys -> list string -> interp * sys * result reply.

Definition set_cwd (i : interp) (d : string) : interp :=
  Interp d (history i) (history_position i).

Section Commands.
(** [$HOME] and the password database, for [os.path.expanduser]. *)
Variable env : PosixPath.user_env.
(** The three handlers that list and read: [cmd_ls], [cmd_cat] and
    [cmd_find] are taken as they come, returning or raising. *)
Variables cmd_ls cmd_cat cmd_find : handler.

(** [CommandInterpreter._resolve_path] *)
Definition resolve_path (i : interp) (path : string) : string :=
  if String.eqb path "" then current_directory i
  else
    let path := if startswith path "~"
                then PosixPath.expanduser env path else path in
    if PosixPath.isabs path then path
    else PosixPath.normpath (PosixPath.join (current_directory i) path).

(** [CommandInterpreter.cmd_cd] *)
Definition cmd_cd : handler := fun i s args =>
  let new_dir :=
    match args with
    | [] => PosixPath.expanduser env "~"
    | a :: _ => resolve_path i a
    end in
  if negb (exists_ (sys_fs s) new_dir) then
    (i, s, Ok (false, "Directory not found: " +:+ new_dir, []))
  else if negb (isdir (sys_fs s) new_dir) then
    (i, s, Ok (false, "Not a directory: " +:+ new_dir, []))
  else
    (set_cwd i new_dir, s, Ok (true, "Changed directory to: " +:+ new_dir, [])).

(** [CommandInterpreter.cmd_pwd] *)
Definition cmd_pwd : handler := fun i s args =>
  (i, s, Ok (true, "Current directory:", [current_directory i])).

(** [CommandInterpreter.cmd_mkdir] *)
Definition cmd_mkdir : handler := fun i s args =>
  match args with
  | [] => (i, s, Ok (false, "Usage: mkdir <directory>", []))
  | a :: _ =>
      let path := resolve_path i a in
      if exists_ (sys_fs s) path then
        (i, s, Ok (false, "Path already exists: " +:+ path, []))
      else
        match os_makedirs (sys_fs s) path with
        | (f, Ok _) =>
            (i, Sys f (signals s), Ok (true, "Created directory: " +:+ path, []))
        | (f, Raise e) =>
            (i, Sys f (signals s),
             Ok (false, "Error creating directory: " +:+ exn_str e, []))
        end
  end.

Definition is_option (arg : string) : bool := startswith arg "-".

Definition has_arg (a : string) (args : list string) : bool :=
  existsb (String.eqb a) args.

(** [CommandInterpreter.cmd_rm] *)
Definition cmd_rm : handler := fun i s args =>
  match args with
  | [] => (i, s, Ok (false, "Usage: rm [-r] <path>", []))
  | _ =>
      let recursive := has_arg "-r" args || has_arg "-rf" args in
      let path_args := List.filter (fun arg => negb (is_option arg)) args in
      match path_args with
      | [] => (i, s, Ok (false, "No path specified", []))
      | p :: _ =>
          let path := resolve_path i p in
          if negb (exists_ (sys_fs s) path) then
            (i, s, Ok (false, "Path not found: " +:+ path, []))
          else if isdir (sys_fs s) path then
            if recursive then
              let '(s', _) := delete_item s path in
              (i, s', Ok (true, "Removed directory: " +:+ path, []))
            else
              (i, s, Ok (false, "Cannot remove directory without -r option: "
                                +:+ path, []))
          else
            let '(s', _) := delete_item s path in
            (i, s', Ok (true, "Removed file: " +:+ path, []))
      end
  end.

(** [CommandInterpreter.cmd_cp] *)
Definition cmd_cp : handler := fun i s args =>
  match args with
  | a0 :: a1 :: _ =>
      let source := resolve_path i a0 in
      let destination := resolve_path i a1 in
      if negb (exists_ (sys_fs s) source) then
        (i, s, Ok (false, "Source not found: " +:+ source, []))
      else
        let '(s', _) := copy_item s source destination in
        (i, s', Ok (true, "Copied " +:+ source +:+ " to " +:+ destination, []))
  | _ => (i, s, Ok (false, "Usage: cp [-r] <source> <destination>", []))
  end.

(** [CommandInterpreter.cmd_mv] *)
Definition cmd_mv : handler := fun i s args =>
  match args with
  | a0 :: a1 :: _ =>
      let source := resolve_path i a0 in
      let destination := resolve_path i a1 in
      if negb (exists_ (sys_fs s) source) then
        (i, s, Ok (false, "Source not found: " +:+ source, []))
      else
        let '(s', _) := move_item s source destination in
        (i, s', Ok (true, "Moved " +:+ source +:+ " to " +:+ destination, []))
  | _ => (i, s, Ok (false, "Usage: mv <source> <destination>", []))
  end.

(** [CommandInterpreter.cmd_clear] *)
Definition cmd_clear : handler := fun i s args =>
  (i, s, Ok (true, "CLEAR", [])).

(** The docstrings [cmd_help] prints, by command name. *)
Definition docs : gmap string string :=
  list_to_map [
    ("cd", "Change directory.");
    ("ls", "List directory contents.");
    ("dir", "List directory contents.");
    ("pwd", "Print working directory.");
    ("mkdir", "Create directory.");
    ("rm", "Remove files or directories.");
    ("cp", "Copy files or directories.");
    ("mv", "Move files or directories.");
    ("cat", "Display file contents.");
    ("find", "Find files matching a pattern.");
    ("help", "Display help information.");
    ("clear", "Clear the console.")
  ].

(** [CommandInterpreter.cmd_help] *)
Definition cmd_help : handler := fun i s args =>
  match args with
  | a :: _ =>
      let command := lower a in
      match docs !! command with
      | Some doc => (i, s, Ok (true, "Help for " +:+ command +:+ ":", [doc]))
      | None => (i, s, Ok (false, "Command not found: " +:+ command, []))
      end
  | [] =>
      (i, s, Ok (true, "Available commands:",
                 merge_sort String.le (map fst (map_to_list docs))))
  end.

(** [self.commands] *)
Definition commands : gmap string handler :=
  list_to_map [
    ("cd", cmd_cd);
    ("ls", cmd_ls);
    ("dir", cmd_ls);
    ("pwd", cmd_pwd);
    ("mkdir", cmd_mkdir);
    ("rm", cmd_rm);
    ("cp", cmd_cp);
    ("mv", cmd_mv);
    ("cat", cmd_cat);
    ("find", cmd_find);
    ("help", cmd_help);
    ("clear", cmd_clear)
  ].

(** The body of the [try] block of [execute]. *)
Definition dispatch (i : interp) (s : sys) (command_line : string)
    : interp * sys * result reply :=
  match Shlex.split command_line with
  | Raise e => (i, s, Raise e)
  | Ok args =>
      match args with
      | [] => (i, s, Raise (Exn "IndexError" "list index out of range"))
      | a0 :: rest =>
          let command := lower a0 in
          match commands !! command with
          | Some h => h i s rest
          | None => (i, s, Ok (false, "Command not found: " +:+ command, []))
          end
      end
  end.

(** [CommandInterpreter.execute] *)
Definition execute (i : interp) (s : sys) (command_line : string)
    : interp * sys * result reply :=
  if String.eqb (strip command_line) "" then (i, s, Ok (true, "", []))
  else
    let i1 := Interp (current_directory i) (history i ++ [command_line])
                     (length (history i ++ [command_line])) in
    match dispatch i1 s command_line with
    | (i', s', Ok r) => (i', s', Ok r)
    | (i', s', Raise e) => (i', s', Ok (false, "Error: " +:+ exn_str e, []))
    end.

End Commands.

End CommandInterpreter.

(** ** [json.loads] *)

Module Json.
Import PyStr Py.

(** A decoded string: its Unicode code points (an escape can denote any
    of them). *)
Abbreviation ustring := (list N).

Definition ustr (s : string) : ustring :=
  map N_of_ascii (list_ascii_of_string s).

#[local] Unset Elimination Schemes.
Inductive value : Type :=
| JNull
| JBool (b : bool)
| JNumber (lexeme : string)
| JString (s : ustring)
| JArray (items : list value)
| JObject (members : list (ustring * value)).
#[local] Set Elimination Schemes.

Definition is_ws (c : ascii) : bool :=
  contains_char c (String " " (String (chr 9) (String (chr 10) (String (chr 13) "")))).

Fixpoint skip_ws (s : string) : string :=
  match s with
  | String c rest => if is_ws c then skip_ws rest else s
  | "" => ""
  end.

Definition is_digit (c : ascii) : bool :=
  let n := nat_of_ascii c in (48 <=? n)%nat && (n <=? 57)%nat.

Definition hex_digit (c : ascii) : option N :=
  let n := nat_of_ascii c in
  if (48 <=? n)%nat && (n <=? 57)%nat then Some (N.of_nat (n - 48))
  else if (65 <=? n)%nat && (n <=? 70)%nat then Some (N.of_nat (n - 55))
  else if (97 <=? n)%nat && (n <=? 102)%nat then Some (N.of_nat (n - 87))
  else None.

(** The four hexadecimal digits of a [\u] escape. *)
Definition hex4 (s : string) : option (N * string) :=
  match s with
  | String a (String b (String c (String d rest))) =>
      match hex_digit a, hex_digit b, hex_digit c, hex_digit d with
      | Some x, Some y, Some z, Some w =>
          Some ((((x * 16 + y) * 16 + z) * 16 + w)%N, rest)
      | _, _, _, _ => None
      end
  | _ => None
  end.

(** What follows a backslash inside a string literal: the code point
    denoted, and the rest of the input.  A high surrogate followed by
    an escaped low surrogate denotes one code point. *)
Definition scan_escape (s : string) : option (N * string) :=
  match s with
  | "" => None
  | String e rest =>
      if char_eqb e "u"%char then
        match hex4 rest with
        | None => None
        | Some (uni, rest') =>
            let single := Some (uni, rest') in
            if (55296 <=? uni)%N && (uni <=? 56319)%N then
              match rest' with
              | String b1 (String b2 low) =>
                  if char_eqb b1 "\"%char && char_eqb b2 "u"%char then
                    match hex4 low with
                    | Some (uni2, after) =>
                        if (56320 <=? uni2)%N && (uni2 <=? 57343)%N
                        then Some ((65536 + N.lor (N.shiftl (uni - 55296) 10)
                                                  (uni2 - 56320))%N, after)
                        else single
                    | None => None
                    end
                  else single
              | _ => single
              end
            else single
        end
      else if char_eqb e (chr 34) then Some (34%N, rest)
      else if char_eqb e "\"%char then Some (92%N, rest)
      else if char_eqb e "/"%char then Some (47%N, rest)
      else if char_eqb e "b"%char then Some (8%N, rest)
      else if char_eqb e "f"%char then Some (12%N, rest)
      else if char_eqb e "n"%char then Some (10%N, rest)
      else if char_eqb e "r"%char then Some (13%N, rest)
      else if char_eqb e "t"%char then Some (9%N, rest)
      else None
  end.

(** The body of a string literal, after the opening quote (strict
    mode: no control characters). *)
Fixpoint scan_string (fuel : nat) (s : string) (acc : ustring)
    : option (ustring * string) :=
  match fuel, s with
  | S fuel', String c rest =>
      if char_eqb c (chr 34) then Some (acc, rest)
      else if char_eqb c "\"%char then
        match scan_escape rest with
        | Some (cp, rest') => scan_string fuel' rest' (acc ++ [cp])
        | None => None
        end
      else if (nat_of_ascii c <? 32)%nat then None
      else scan_string fuel' rest (acc ++ [N_of_ascii c])
  | _, _ => None
  end.

Fixpoint take_digits (s : string) : string * string :=
  match s with
  | String c rest =>
      if is_digit c then let '(d, r) := take_digits rest in (String c d, r)
      else ("", s)
  | "" => ("", "")
  end.

(** A number at the head of the input: an optional minus sign; a zero
    or a run of digits not starting with zero; optionally a point and
    at least one digit; optionally an exponent mark, a sign and at
    least one digit.  An optional part that does not match in full is
    left in the input. *)
Definition scan_number (s : string) : option (string * string) :=
  let '(sign, s1) :=
    match s with
    | String "-" r => ("-", r)
    | _ => ("", s)
    end in
  let int_part :=
    match s1 with
    | String "0" r => Some ("0", r)
    | String c _ =>
        if is_digit c then Some (take_digits s1) else None
    | "" => None
    end in
  match int_part with
  | None => None
  | Some (ip, s2) =>
      let '(frac, s3) :=
        match s2 with
        | String "." r =>
            match take_digits r with
            | ("", _) => ("", s2)
            | (d, r') => ("." +:+ d, r')
            end
        | _ => ("", s2)
        end in
      let '(ex, s4) :=
        match s3 with
        | String e r =>
            if char_eqb e "e"%char || char_eqb e "E"%char then
              let '(sg, r1) :=
                match r with
                | String "+" r' => ("+", r')
                | String "-" r' => ("-", r')
                | _ => ("", r)
                end in
              match take_digits r1 with
              | ("", _) => ("", s3)
              | (d, r') => (String e (sg +:+ d), r')
              end
            else ("", s3)
        | "" => ("", s3)
        end in
      Some (sign +:+ ip +:+ frac +:+ ex, s4)
  end.

Definition strip_prefix (p s : string) : option string :=
  if startswith s p then Some (drop (String.length p) s) else None.

(** The scanner: a value at the head of the input, and what follows
    it.  [None] is a [JSONDecodeError]; the fuel bounds the nesting. *)
Fixpoint scan_value (fuel : nat) (s : string) : option (value * string) :=
  match fuel with
  | O => None
  | S fuel' =>
      match s with
      | "" => None
      | String c rest =>
          if char_eqb c (chr 34) then
            match scan_string (String.length rest) rest [] with
            | Some (u, r) => Some (JString u, r)
            | None => None
            end
          else if char_eqb c "["%char then
            match skip_ws rest with
            | String "]" r => Some (JArray [], r)
            | rest' => scan_items fuel' rest' []
            end
          else if char_eqb c "{"%char then
            match skip_ws rest with
            | String "}" r => Some (JObject [], r)
            | rest' => scan_members fuel' rest' []
            end
          else
            match strip_prefix "null" s, strip_prefix "true" s,
                  strip_prefix "false" s with
            | Some r, _, _ => Some (JNull, r)
            | _, Some r, _ => Some (JBool true, r)
            | _, _, Some r => Some (JBool false, r)
            | _, _, _ =>
                match scan_number s with
                | Some (lexeme, r) => Some (JNumber lexeme, r)
                | None =>
                    match strip_prefix "NaN" s, strip_prefix "Infinity" s,
                          strip_prefix "-Infinity" s with
                    | Some r, _, _ => Some (JNumber "NaN", r)
                    | _, Some r, _ => Some (JNumber "Infinity", r)
                    | _, _, Some r => Some (JNumber "-Infinity", r)
                    | _, _, _ => None
                    end
                end
            end
      end
  end
with scan_items (fuel : nat) (s : string) (acc : list value)
    : option (value * string) :=
  match fuel with
  | O => None
  | S fuel' =>
      match scan_value fuel' s with
      | None => None
      | Some (v, r) =>
          match skip_ws r with
          | String "," r' => scan_items fuel' (skip_ws r') (acc ++ [v])
          | String "]" r' => Some (JArray (acc ++ [v]), r')
          | _ => None
          end
      end
  end
with scan_members (fuel : nat) (s : string) (acc : list (ustring * value))
    : option (value * string) :=
  match fuel with
  | O => None
  | S fuel' =>
      match s with
      | String q rest =>
          if char_eqb q (chr 34) then
            match scan_string (String.length rest) rest [] with
            | None => None
            | Some (k, r) =>
                match skip_ws r with
                | String ":" r1 =>
                    match scan_value fuel' (skip_ws r1) with
                    | None => None
                    | Some (v, r2) =>
                        match skip_ws r2 with
                        | String "," r3 =>
                            scan_members fuel' (skip_ws r3) (acc ++ [(k, v)])
                        | String "}" r3 => Some (JObject (acc ++ [(k, v)]), r3)
                        | _ => None
                        end
                    end
                | _ => None
                end
            end
          else None
      | "" => None
      end
  end.

Definition JSONDecodeError : exn := Exn "JSONDecodeError" "Expecting value".

(** [json.loads]: one value, with white space allowed around it and
    nothing else. *)
Definition loads (s : string) : result value :=
  match scan_value (2 * String.length s + 2) (skip_ws s) with
  | Some (v, rest) =>
      if String.eqb (skip_ws rest) "" then Ok v else Raise JSONDecodeError
  | None => Raise JSONDecodeError
  end.

(** [isinstance(v, list) and all(isinstance(p, str) for p in v)] *)
Definition as_string_list (v : value) : option (list ustring) :=
  match v with
  | JArray items =>
      mapM (fun x => match x with JString u => Some u | _ => None end) items
  | _ => None
  end.

End Json.

(** ** [automanager/app_window.py]: [MainWindow._handle_llm_response] *)

Module LlmResponse.
Import PyStr Py Json.

(** The logger calls of the handler, by call site, with the values
    they format. *)
Inductive log_call : Type :=
| ResponseReceived (length : nat)
| ProvidedFoundFiles (found_paths : list ustring)
| NotAListOfStrings (json_str : string)
| FailedToParse (e : exn) (json_str : string)
| ErrorProcessing (e : exn).

Inductive level : Type := INFO | WARNING | ERROR.

(** What the handler does to the window, in order. *)
Inductive event : Type :=
| Log (lvl : level) (call : log_call)
| AddMessageToHistory (sender text : string)
| SelectFilesByPaths (delay_ms : nat) (paths : list ustring)
| ShowMessage (text : string) (timeout_ms : nat)
| FinalizeLlmProcessing.

Definition found_files_prefix : string := "FOUND_FILES_JSON:".

(** The body of the loop over the lines: the bracketed part of a line
    that starts with the prefix, when it has one. *)
Definition candidate_of_line (line : string) : option string :=
  if startswith (strip line) found_files_prefix then
    let json_part :=
      strip (slice_from (strip line) (len found_files_prefix)) in
    let start_index := find "["%char json_part in
    let end_index := rfind "]"%char json_part in
    if negb (start_index =? -1)%Z && negb (end_index =? -1)%Z
       && (start_index <? end_index)%Z
    then Some (slice json_part start_index (end_index + 1))
    else None
  else None.

(** The loop, with its [break]: [json_str_to_parse] when it ends. *)
Fixpoint first_candidate (response_lines : list string) : option string :=
  match response_lines with
  | [] => None
  | line :: rest =>
      match candidate_of_line line with
      | Some json_str => Some json_str
      | None => first_candidate rest
      end
  end.

Definition response_lines (response_text : string) : list string :=
  split (chr 10) (strip response_text).

Definition json_str_to_parse (response_text : string) : option string :=
  first_candidate (response_lines response_text).

(** What is done with the string handed to [json.loads]. *)
Definition process_json (json_str : string) : list event :=
  match loads json_str with
  | Ok found =>
      match as_string_list found with
      | Some found_paths =>
          [Log INFO (ProvidedFoundFiles found_paths);
           SelectFilesByPaths 100 found_paths;
           ShowMessage ("LLM found " +:+ of_nat (length found_paths)
                        +:+ " files. Selecting...") 5000]
      | None => [Log WARNING (NotAListOfStrings json_str)]
      end
  | Raise e =>
      if String.eqb (exn_class e) "JSONDecodeError"
      then [Log ERROR (FailedToParse e json_str)]
      else [Log ERROR (ErrorProcessing e)]
  end.

(** [MainWindow._handle_llm_response]; [has_chat_widget] says whether
    [get_llm_chat_widget()] returned a widget. *)
Definition handle_llm_response (has_chat_widget : bool)
    (response_text : string) : list event :=
  [Log INFO (ResponseReceived (String.length response_text))]
  ++ (if has_chat_widget then [AddMessageToHistory "LLM" response_text] else [])
  ++ match json_str_to_parse response_text with
     | Some json_str =>
         if String.eqb json_str "" then [ShowMessage "LLM response processed." 3000]
         else process_json json_str
     | None => [ShowMessage "LLM response processed." 3000]
     end
  ++ [FinalizeLlmProcessing].

(** The paths the browser is told to select. *)
Definition selections (evs : list event) : list (list ustring) :=
  omap (fun e => match e with
                 | SelectFilesByPaths _ paths => Some paths
                 | _ => None
                 end) evs.

(** The errors logged. *)
Definition logged_errors (evs : list event) : list log_call :=
  omap (fun e => match e with
                 | Log ERROR call => Some call
                 | _ => None
                 end) evs.

End LlmResponse.

(** ** [automanager/core/metadata_service.py] *)

Module MetadataService.
Import PyStr.

(** A row of [file_metadata]; the two text columns admit NULL. *)
Record row := Row {
  tags : option string;
  notes : option string;
  last_updated : nat
}.

Global Instance row_eq_dec : EqDecision row.
Proof. solve_decision. Defined.

(** The SQL statements the service sends. *)
Inductive statement : Type :=
| Select (file_path : string)
| Insert (file_path tags notes : string)
| Update (file_path : string) (new_tags new_notes : option string)
| Commit.

(** The database: whether a connection can be had, the table keyed by
    [file_path], and the statements executed so far. *)
Record database := Database {
  connected : bool;
  table : gmap string row;
  executed : list statement
}.

Definition run (d : database) (st : statement) (t : gmap string row)
    : database :=
  Database (connected d) t (executed d ++ [st]).

(** Python truthiness of a value that is [None] or a string. *)
Definition truthy (o : option string) : bool :=
  match o with
  | Some s => negb (String.eqb s "")
  | None => false
  end.

(** The dictionary [get_metadata] returns. *)
Record metadata := Metadata {
  meta_tags : list string;
  meta_notes : option string
}.

Section WithProcess.
(** [os.getcwd()] *)
Variable cwd : string.

(** [MetadataService.get_metadata] *)
Definition get_metadata (d : database) (file_path : string)
    : database * option metadata :=
  let abs_path := PosixPath.abspath cwd file_path in
  if negb (connected d) then (d, None)
  else
    let d1 := run d (Select abs_path) (table d) in
    match table d !! abs_path with
    | Some r =>
        let tags_list :=
          if truthy (tags r)
          then split ","%char (default "" (tags r)) else [] in
        (d1, Some (Metadata tags_list (notes r)))
    | None => (d1, None)
    end.

(** [",".join(tag.strip() for tag in tags if tag.strip())] *)
Definition tags_to_str (tag_list : list string) : string :=
  PyStr.join ","
    (map strip (List.filter (fun tag => negb (String.eqb (strip tag) ""))
                            tag_list)).

(** The row after [UPDATE ... SET] of the columns given. *)
Definition updated (r : row) (new_tags new_notes : option string)
    (now : nat) : row :=
  Row (match new_tags with Some t => Some t | None => tags r end)
      (match new_notes with Some n => Some n | None => notes r end)
      now.

(** [MetadataService.save_metadata], at a moment when
    [CURRENT_TIMESTAMP] is [now]. *)
Definition save_metadata (now : nat) (d : database) (file_path : string)
    (tag_list : option (list string)) (note_text : option string)
    : database :=
  let abs_path := PosixPath.abspath cwd file_path in
  if negb (connected d) then d
  else
    match get_metadata d abs_path with
    | (d1, None) =>
        let tags_to_save_str :=
          match tag_list with Some l => tags_to_str l | None => "" end in
        let note_to_save := default "" note_text in
        let d2 := run d1 (Insert abs_path tags_to_save_str note_to_save)
                      (<[abs_path := Row (Some tags_to_save_str)
                                         (Some note_to_save) now]>
                         (table d1)) in
        run d2 Commit (table d2)
    | (d1, Some existing_meta) =>
        let current_tags_str := PyStr.join "," (meta_tags existing_meta) in
        let current_notes := meta_notes existing_meta in
        let tags_clause :=
          match tag_list with
          | Some l =>
              if negb (String.eqb (tags_to_str l) current_tags_str)
              then Some (tags_to_str l) else None
          | None => None
          end in
        let notes_clause :=
          match note_text with
          | Some n =>
              if negb (bool_decide (Some n = current_notes))
              then Some n else None
          | None => None
          end in
        match tags_clause, notes_clause with
        | None, None => d1
        | _, _ =>
            let t' :=
              match table d1 !! abs_path with
              | Some r =>
                  <[abs_path := updated r tags_clause notes_clause now]>
                    (table d1)
              | None => table d1
              end in
            let d2 := run d1 (Update abs_path tags_clause notes_clause) t' in
            run d2 Commit (table d2)
        end
    end.

End WithProcess.

(** The statements that write. *)
Definition is_write (st : statement) : bool :=
  match st with
  | Insert _ _ _ | Update _ _ _ => true
  | Select _ | Commit => false
  end.

End MetadataService.

(** * The vocabulary of the properties *)

(** ** Paths and trees *)

Section PathVocabulary.
Import PyStr PosixPath.

(** A string that can stand before a base name: empty, or ending in a
    slash. *)
Definition dir_prefix (x : string) : Prop :=
  x = "" \/ exists a, x = a +:+ "/".

(** A name an entry of a directory can have. *)
Definition proper_name (b : string) : Prop :=
  b <> "" /\ b <> "." /\ b <> ".." /\ contains_char sep b = false.

End PathVocabulary.

Section FsVocabulary.
Import PyStr Py Fs PosixPath.

(** One file system inside another: the same working directory, and a
    tree that has every node of the smaller one. *)
Definition sub_fs (f' f : filesys) : Prop :=
  tree f' ⊆ tree f /\ cwd f' = cwd f.

(** A well-formed tree: every node hangs in a directory. *)
Definition wf_fs (f : filesys) : Prop :=
  map_Forall (fun k _ =>
                Forall (fun i => node_at f (firstn i k) = Some Dir)
                       (seq 0 (length k)))
             (tree f).

Global Instance wf_fs_dec f : Decision (wf_fs f).
Proof. unfold wf_fs. apply _. Defined.

(** [dst] is the node [p] names, or lies below it. *)
Definition inside (f : filesys) (p dst : string) : bool :=
  match resolve f p, resolve f dst with
  | Some ks, Some kd => within ks kd
  | _, _ => false
  end.

(** What the paste of one path needs of the file system, in terms of
    the nodes the paths name. *)
Record pasteable (f : filesys) (p dst : string) (ks kd : key) (ns : node)
    : Prop := {
  pa_source : resolve f p = Some ks;
  pa_node : node_at f ks = Some ns;
  pa_dest : resolve f dst = Some kd;
  pa_dir : node_at f kd = Some Dir;
  pa_name : proper_name (basename p);
  pa_free : node_at f (kd ++ [basename p]) = None;
  pa_out : within ks kd = false
}.

(** The tree with a copy of the source under the target. *)
Definition copied (f : filesys) (p : string) (ks kd : key) (ns : node)
    : gmap key node :=
  match ns with
  | Dir =>
      graft (omap duplicate (subtree ks (tree f))) (kd ++ [basename p])
            (<[kd ++ [basename p] := Dir]> (tree f))
  | File data _ => <[kd ++ [basename p] := File data false]> (tree f)
  | Fifo => tree f
  end.

(** The named pipes at the node [p] names and below it. *)
Definition pipes_of (f : filesys) (p : string) : list key :=
  match resolve f p with
  | Some k => pipes_within k (tree f)
  | None => []
  end.

(** What [delete_items] is to take away for the path [p]: [p] leads to
    the regular file or directory at [k], which is not the root; it has
    no ".." on its way and no "." at its end; and no file at [k] or
    below it is immutable. *)
Definition removable (f : filesys) (p : string) (k : key) : Prop :=
  resolve f p = Some k /\ k <> []
  /\ is_file_node (node_at f k) || is_dir_node (node_at f k) = true
  /\ ~ In ".." (split sep p)
  /\ final_dot p = false
  /\ immutable_within k (tree f) = [].

End FsVocabulary.

(** ** Sample data for the examples *)

Module Sample.
Import PyStr Py Fs SecurityService.

(** /docs/report.txt, /docs/old/, /backup/, /archive/ and a file whose
    name is one blank, /docs/" ". *)
Definition sample_tree : gmap key node :=
  list_to_map [
    (["docs"], Dir);
    (["docs"; "report.txt"], File "quarterly figures" false);
    (["docs"; " "], File "" false);
    (["docs"; "old"], Dir);
    (["docs"; "old"; "notes.txt"], File "draft" false);
    (["backup"], Dir);
    (["archive"], Dir)
  ].

Definition sample_fs : filesys := FileSys sample_tree [].

Definition sample_world : world := World sample_fs [].

(** The sample tree with a named pipe, /docs/pipe, and an immutable
    file, /docs/ledger.txt. *)
Definition special_tree : gmap key node :=
  <[["docs"; "pipe"] := Fifo]>
    (<[["docs"; "ledger.txt"] := File "accounts" true]> sample_tree).

Definition special_fs : filesys := FileSys special_tree [].

Definition special_world : world := World special_fs [].

Definition sample_env : PosixPath.user_env :=
  {| PosixPath.env_home := "/docs";
     PosixPath.env_pw_dir := fun _ => None |}.

End Sample.

(** ** The clipboard *)

Section ClipboardVocabulary.
Import PyStr Py Fs SecurityService FileOperationService.

(** The clipboard is empty, or holds a copy or a cut of at least one
    path. *)
Definition clipboard_ok (c : clipboard_t) : Prop :=
  match c with
  | ClipEmptyList => True
  | ClipDict action paths => (action = "copy" \/ action = "cut") /\ paths <> []
  end.

(** The calls a client can make on the clipboard. *)
Inductive clipboard_call : Type :=
| CallCopy (paths : list string)
| CallCut (paths : list string)
| CallPaste (destination_dir : string).

Definition run_call (u : user) (st : service * world) (c : clipboard_call)
    : service * world :=
  match c with
  | CallCopy paths => (copy_to_clipboard st.1 paths, st.2)
  | CallCut paths => (cut_to_clipboard st.1 paths, st.2)
  | CallPaste d => (paste_from_clipboard u st.1 st.2 d).1
  end.

Definition run_calls (u : user) (st : service * world)
    (cs : list clipboard_call) : service * world :=
  fold_left (run_call u) cs st.

End ClipboardVocabulary.

(** ** The command interpreter *)

Section InterpreterVocabulary.
Import PyStr Py Fs FileOperations CommandInterpreter.

(** The interpreter as [execute] hands it to the [try] block. *)
Definition entered (i : interp) (command_line : string) : interp :=
  Interp (current_directory i) (history i ++ [command_line])
         (length (history i ++ [command_line])).

(** An interpreter in /docs of the sample tree. *)
Definition sample_interp : interp := Interp "/docs" [] 0.
Definition sample_sys : sys := Sys Sample.sample_fs [].

(** A stand-in for the handlers that list and read. *)
Definition no_listing : handler :=
  fun i s _ => (i, s, Raise (Exn "NotImplementedError" "")).

End InterpreterVocabulary.

(** ** LLM responses *)

Section LlmVocabulary.
Import PyStr Py Json LlmResponse.

(** What the handler selects depends only on the string it hands to
    the parser. *)
Definition selection_of (json_str : string) : list (list ustring) :=
  match loads json_str with
  | Ok found =>
      match as_string_list found with
      | Some found_paths => [found_paths]
      | None => []
      end
  | Raise _ => []
  end.

Definition dq : string := String (chr 34) "".

(** The line of the specification:
    FOUND_FILES_JSON: ["/a/b.txt","/c/d.txt"] *)
Definition spec_line : string :=
  "FOUND_FILES_JSON: [" +:+ dq +:+ "/a/b.txt" +:+ dq +:+ "," +:+ dq
  +:+ "/c/d.txt" +:+ dq +:+ "]".

Definition spec_paths : list ustring := [ustr "/a/b.txt"; ustr "/c/d.txt"].

(** A response whose first prefixed line is bracketed but not JSON, and
    whose second is the line of the specification. *)
Definition two_line_response : string :=
  "FOUND_FILES_JSON: [oops]" +:+ nl +:+ spec_line.

(** The line of the specification cut short before its closing
    bracket. *)
Definition truncated_line : string :=
  "FOUND_FILES_JSON: [" +:+ dq +:+ "/a/b.txt" +:+ dq +:+ "," +:+ dq
  +:+ "/c/d.txt" +:+ dq.

End LlmVocabulary.

(** ** Metadata *)

Section MetadataVocabulary.
Import PyStr MetadataService.

(** What [save_metadata] compares the new tags with: the stored tags,
    split and joined again. *)
Definition current_tags_str (r : row) : string :=
  PyStr.join "," (if truthy (tags r)
                  then split ","%char (default "" (tags r)) else []).

(** A row that a save of [tag_list] and [note_text] finds nothing to
    change in. *)
Definition settled (r : row) (tag_list : option (list string))
    (note_text : option string) : Prop :=
  (forall l, tag_list = Some l -> tags_to_str l = current_tags_str r)
  /\ (forall n, note_text = Some n -> Some n = notes r).

(** A database with a connection and no rows. *)
Definition sample_db : database := Database true ∅ [].

End MetadataVocabulary.

(** * Properties *)

(** ** Strings and paths *)

Section PyStrFacts.
Import PyStr.

Lemma char_eqb_eq a b : char_eqb a b = true <-> a = b.
Proof. apply Ascii.eqb_eq. Qed.

Lemma char_eqb_spec a b : reflect (a = b) (char_eqb a b).
Proof. apply Ascii.eqb_spec. Qed.

Lemma append_nil_l s : "" +:+ s = s.
Proof. reflexivity. Qed.

Lemma append_cons c a b : String c a +:+ b = String c (a +:+ b).
Proof. reflexivity. Qed.

Lemma append_nil_r s : s +:+ "" = s.
Proof. induction s; rewrite ?append_nil_l, ?append_cons; congruence. Qed.

Lemma append_assoc a b c : (a +:+ b) +:+ c = a +:+ (b +:+ c).
Proof. induction a; rewrite ?append_nil_l, ?append_cons; congruence. Qed.

Lemma split_nonempty ch s : split ch s <> [].
Proof.
  destruct s as [|c s]; simpl; [done|].
  destruct (char_eqb c ch); [done|]. by destruct (split ch s).
Qed.

(** Joining what [split] returns gives the string back. *)
Lemma join_split ch s : PyStr.join (String ch "") (split ch s) = s.
Proof.
  induction s as [|c s IH]; simpl; [done|].
  destruct (char_eqb_spec c ch) as [->|Hne].
  - pose proof (split_nonempty ch s).
    destruct (split ch s) as [|h t] eqn:E; [done|].
    simpl in *. by rewrite IH.
  - destruct (split ch s) as [|h t] eqn:E; [by destruct (split_nonempty ch s)|].
    destruct t as [|h' t]; simpl in *; by rewrite <- IH.
Qed.

Lemma split_free ch s : contains_char ch s = false -> split ch s = [s].
Proof.
  induction s as [|c s IH]; simpl; [done|].
  destruct (char_eqb c ch); simpl; [done|]. intros H. by rewrite IH.
Qed.

Lemma split_all_free ch s : Forall (fun c => contains_char ch c = false) (split ch s).
Proof.
  induction s as [|c s IH]; simpl; [by repeat constructor|].
  destruct (char_eqb c ch) eqn:E; [by constructor|].
  pose proof (split_nonempty ch s).
  destruct (split ch s) as [|h t]; [done|].
  inversion IH; subst. constructor; [|done]. simpl. by rewrite E.
Qed.

(** Splitting distributes over a separator in the middle. *)
Lemma split_app ch a b :
  split ch (a +:+ String ch b) = split ch a ++ split ch b.
Proof.
  induction a as [|c a IH]; simpl.
  - destruct (char_eqb_spec ch ch); done.
  - destruct (char_eqb c ch); [by rewrite IH|].
    rewrite IH. pose proof (split_nonempty ch a).
    by destruct (split ch a).
Qed.

Lemma split_join ch comps :
  comps <> [] -> Forall (fun c => contains_char ch c = false) comps ->
  split ch (PyStr.join (String ch "") comps) = comps.
Proof.
  intros Hne Hall. induction Hall as [|c comps Hc Hall IH]; [done|].
  destruct comps as [|c' comps]; simpl.
  - by apply split_free.
  - rewrite append_cons, append_nil_l, split_app, split_free by done.
    simpl. f_equal. by apply IH.
Qed.

End PyStrFacts.

Section PosixPathFacts.
Import PyStr PosixPath.

Lemma forall_removelast {A} (P : A -> Prop) (l : list A) :
  Forall P l -> Forall P (removelast l).
Proof.
  induction 1 as [|x l Hx Hl IH]; simpl; [done|].
  destruct l; [done|]. by constructor.
Qed.

Lemma forall_last {A} (P : A -> Prop) (l : list A) x :
  Forall P l -> last l = Some x -> P x.
Proof.
  intros H Hl. apply last_Some in Hl as [l' ->].
  apply Forall_app in H as [_ H]. by inversion H.
Qed.

Lemma norm_comps_proper n acc comps :
  n <> 0%nat -> Forall proper_name acc ->
  Forall (fun c => contains_char sep c = false) comps ->
  Forall proper_name (norm_comps n acc comps).
Proof.
  intros Hn Hacc Hcomps. revert acc Hacc.
  induction Hcomps as [|c comps Hc _ IH]; intros acc Hacc; simpl; [done|].
  destruct (String.eqb_spec c ""); simpl; [by apply IH|].
  destruct (String.eqb_spec c "."); simpl; [by apply IH|].
  destruct (String.eqb_spec c ".."); simpl.
  - destruct (Nat.eqb_spec n 0); [done|]. simpl.
    destruct (last acc) as [l|] eqn:El.
    + destruct (String.eqb_spec l "..") as [->|?].
      * by destruct (forall_last _ _ _ Hacc El) as (_ & _ & ? & _).
      * apply IH. by apply forall_removelast.
    + apply IH. by apply forall_removelast.
  - apply IH. apply Forall_app. split; [done|]. by repeat constructor.
Qed.

Lemma norm_comps_of_proper n acc comps :
  Forall proper_name comps -> norm_comps n acc comps = acc ++ comps.
Proof.
  intros H. revert acc. induction H as [|c comps (H1 & H2 & H3 & _) _ IH];
    intros acc; simpl; [by rewrite app_nil_r|].
  destruct (String.eqb_spec c ""); [done|].
  destruct (String.eqb_spec c "."); [done|].
  destruct (String.eqb_spec c ".."); [done|]. simpl.
  by rewrite IH, <- app_assoc.
Qed.

Lemma startswith_slash a s : startswith (String a s) "/" = char_eqb a sep.
Proof.
  simpl. apply andb_true_r.
Qed.

Lemma startswith_free c :
  contains_char sep c = false -> startswith c "/" = false.
Proof.
  destruct c as [|a c]; [done|]. rewrite startswith_slash. simpl.
  by destruct (char_eqb a sep).
Qed.

Lemma join_proper_no_slash comps :
  Forall proper_name comps -> startswith (PyStr.join sep_str comps) "/" = false.
Proof.
  intros H. destruct H as [|c comps (H1 & _ & _ & H4) _]; [done|].
  pose proof (startswith_free c H4) as Hc.
  destruct comps; simpl; [done|].
  destruct c as [|a c]; [done|]. rewrite append_cons.
  exact Hc.
Qed.

(** What [normpath] returns for an absolute path: one or two slashes
    and proper names. *)
Lemma normpath_absolute path :
  isabs path = true ->
  exists pre comps,
    (pre = "/" \/ pre = "//") /\ Forall proper_name comps
    /\ normpath path = pre +:+ PyStr.join "/" comps.
Proof.
  intros Habs. unfold normpath.
  destruct (String.eqb_spec path "") as [->|Hne]; [done|].
  unfold isabs, sep_str in Habs. rewrite Habs.
  destruct (startswith path "//" && negb (startswith path "///")).
  - exists "//", (norm_comps 2 [] (split sep path)).
    split; [by right|]. split.
    + apply norm_comps_proper; [done|constructor|apply split_all_free].
    + by rewrite append_cons.
  - exists "/", (norm_comps 1 [] (split sep path)).
    split; [by left|]. split.
    + apply norm_comps_proper; [done|constructor|apply split_all_free].
    + by rewrite append_cons.
Qed.

Lemma normpath_normal pre comps :
  pre = "/" \/ pre = "//" -> Forall proper_name comps ->
  isabs (pre +:+ PyStr.join "/" comps) = true
  /\ normpath (pre +:+ PyStr.join "/" comps) = pre +:+ PyStr.join "/" comps.
Proof.
  intros Hpre Hclean.
  pose proof (join_proper_no_slash comps Hclean) as Hbody.
  unfold sep_str in Hbody.
  assert (forall n, norm_comps n [] (split sep (PyStr.join "/" comps)) = comps)
    as Hnorm.
  { intros n. destruct comps as [|c comps'] eqn:E; [done|].
    rewrite <- E in *. change "/" with (String sep "").
    rewrite split_join.
    - by rewrite norm_comps_of_proper.
    - by rewrite E.
    - eapply Forall_impl; [exact Hclean|]. by intros ? (_ & _ & _ & ?). }
  set (body := PyStr.join "/" comps) in *.
  destruct Hpre as [-> | ->]; rewrite ?append_cons, ?append_nil_l.
  - split; [reflexivity|]. unfold normpath.
    change (String "/" body =? "")%string with false. cbv iota.
    change (startswith (String "/" body) "/") with true. cbv iota.
    change (startswith (String "/" body) "//") with (startswith body "/").
    rewrite Hbody. cbn [andb]. cbv iota.
    change (split sep (String "/" body)) with ("" :: split sep body).
    change (norm_comps 1 [] ("" :: split sep body))
      with (norm_comps 1 [] (split sep body)).
    rewrite Hnorm. fold body. rewrite ?append_cons, ?append_nil_l. done.
  - split; [reflexivity|]. unfold normpath.
    change (String "/" (String "/" body) =? "")%string with false. cbv iota.
    change (startswith (String "/" (String "/" body)) "/") with true.
    cbv iota.
    change (startswith (String "/" (String "/" body)) "//") with true.
    change (startswith (String "/" (String "/" body)) "///")
      with (startswith body "/").
    rewrite Hbody. cbn [andb negb]. cbv iota.
    change (split sep (String "/" (String "/" body)))
      with ("" :: "" :: split sep body).
    change (norm_comps 2 [] ("" :: "" :: split sep body))
      with (norm_comps 2 [] (split sep body)).
    rewrite Hnorm. fold body. rewrite ?append_cons, ?append_nil_l. done.
Qed.

(** [normpath] leaves what it returned for an absolute path as it
    is. *)
Lemma normpath_idempotent path :
  isabs path = true ->
  isabs (normpath path) = true /\ normpath (normpath path) = normpath path.
Proof.
  intros Habs.
  destruct (normpath_absolute path Habs) as (pre & comps & Hpre & Hclean & ->).
  by apply normpath_normal.
Qed.

Lemma isabs_join cwd p : isabs cwd = true -> isabs (join cwd p) = true.
Proof.
  intros H. unfold join, isabs in *.
  destruct (startswith p sep_str) eqn:Hp; [done|].
  destruct cwd as [|c cwd]; [done|]. unfold sep_str in *.
  rewrite startswith_slash in H.
  destruct (_ || _); rewrite append_cons, startswith_slash; done.
Qed.

(** [abspath] of an absolute working directory is idempotent. *)
Lemma abspath_idempotent cwd p :
  isabs cwd = true -> abspath cwd (abspath cwd p) = abspath cwd p.
Proof.
  intros Hcwd. unfold abspath at 1 3.
  set (P := if isabs p then p else join cwd p).
  assert (isabs P = true) as HP.
  { unfold P. destruct (isabs p) eqn:E; [done|]. by apply isabs_join. }
  destruct (normpath_idempotent P HP) as [H1 H2].
  unfold abspath. fold P. by rewrite H1.
Qed.

End PosixPathFacts.

Section PathStringFacts.
Import PyStr PosixPath.

Lemma length_append a b :
  String.length (a +:+ b) = (String.length a + String.length b)%nat.
Proof. induction a; rewrite ?append_nil_l, ?append_cons; simpl; congruence. Qed.

Lemma drop_append a b : drop (String.length a) (a +:+ b) = b.
Proof. induction a; rewrite ?append_nil_l, ?append_cons; simpl; congruence. Qed.

(** Where [rfind] lands: on the default when the character does not
    occur, and otherwise just before a tail free of it. *)
Lemma rfind_from_spec ch s i last :
  (contains_char ch s = false /\ rfind_from ch s i last = last)
  \/ (exists a b, s = a +:+ String ch b /\ contains_char ch b = false
                  /\ rfind_from ch s i last = (i + len a)%Z).
Proof.
  revert i last. induction s as [|c s IH]; intros i last; simpl; [by left|].
  destruct (IH (i + 1)%Z (if char_eqb c ch then i else last))
    as [[Hfree ->]|(a & b & -> & Hb & ->)].
  - destruct (char_eqb_spec c ch) as [->|Hne]; simpl.
    + right. exists "", s. rewrite append_nil_l. unfold len. simpl.
      split; [done|]. split; [done|lia].
    + by left.
  - right. exists (String c a), b. rewrite append_cons.
    split; [done|]. split; [done|]. unfold len. simpl String.length. lia.
Qed.

Lemma clamp_index_inside s i :
  (0 <= i <= len s)%Z -> clamp_index s i = Z.to_nat i.
Proof.
  intros H. unfold clamp_index. destruct (Z.ltb_spec i 0); [lia|].
  f_equal. lia.
Qed.

(** A path is its base name, or a prefix that ends in a slash followed
    by its base name; the base name has no slash. *)
Lemma basename_cases p :
  contains_char sep (basename p) = false
  /\ (p = basename p \/ exists a, p = (a +:+ "/") +:+ basename p).
Proof.
  unfold basename, rfind, slice_from.
  destruct (rfind_from_spec sep p 0 (-1)) as [[Hfree ->]|(a & b & -> & Hb & ->)].
  - rewrite clamp_index_inside by (unfold len; lia). simpl.
    split; [done|by left].
  - rewrite clamp_index_inside
      by (unfold len; rewrite length_append; simpl String.length; lia).
    replace (Z.to_nat (0 + len a + 1)) with (String.length (a +:+ "/"))
      by (unfold len; rewrite length_append; simpl; lia).
    change (String sep b) with ("/" +:+ b).
    rewrite <- append_assoc, drop_append.
    split; [done|]. right. by exists a.
Qed.

Lemma path_shape p : exists x, dir_prefix x /\ p = x +:+ basename p.
Proof.
  destruct (basename_cases p) as [_ [H|[a H]]].
  - exists "". split; [by left|done].
  - exists (a +:+ "/"). split; [right; by exists a|done].
Qed.

Lemma endswith_slash s : endswith s "/" = true -> exists a, s = a +:+ "/".
Proof.
  induction s as [|c s IH]; [done|].
  change (endswith (String c s) "/")
    with (String.eqb (String c s) "/" || endswith s "/").
  destruct (String.eqb_spec (String c s) "/") as [E|_]; simpl orb.
  - intros _. exists "". by rewrite E.
  - intros H. destruct (IH H) as [a ->]. by exists (String c a).
Qed.

(** [os.path.join] of a directory and a name without slash. *)
Lemma join_shape dst b :
  dst <> "" -> contains_char sep b = false ->
  exists x, dir_prefix x /\ join dst b = x +:+ b
            /\ (x = dst \/ x = dst +:+ "/" /\ endswith dst "/" = false).
Proof.
  intros Hne Hb. unfold join, sep_str. rewrite (startswith_free b Hb).
  destruct (String.eqb_spec dst ""); [done|]. simpl orb.
  destruct (endswith dst "/") eqn:E.
  - destruct (endswith_slash _ E) as [a ->].
    exists (a +:+ "/"). split; [right; by exists a|]. split; [done|by left].
  - exists (dst +:+ "/"). split; [right; by exists dst|].
    split; [by rewrite append_assoc|by right].
Qed.

Lemma append_char_inj a a' c : a +:+ String c "" = a' +:+ String c "" -> a = a'.
Proof.
  revert a'. induction a as [|x a IH]; intros [|x' a'];
    rewrite ?append_nil_l, ?append_cons; try done.
  - intros [= <- H]. by destruct a'.
  - intros [= -> H]. by destruct a.
  - intros [= -> H]. f_equal. by apply IH.
Qed.

Lemma append_not_nil a b : b <> "" -> a +:+ b <> "".
Proof.
  intros Hb E. apply (f_equal String.length) in E.
  rewrite length_append in E. destruct b; [done|]. simpl in E. lia.
Qed.

Lemma split_prefix_name x b :
  dir_prefix x -> contains_char sep b = false ->
  exists init, split sep (x +:+ b) = init ++ [b]
               /\ (x = "" -> init = [])
               /\ (forall a, x = a +:+ "/" -> init = split sep a).
Proof.
  intros [->|[a ->]] Hb.
  - exists []. rewrite append_nil_l, split_free by done.
    split; [done|]. split; [done|]. intros a Ha. symmetry in Ha.
    by apply append_not_nil in Ha.
  - exists (split sep a). rewrite append_assoc.
    change ("/" +:+ b) with (String sep b).
    rewrite split_app, (split_free sep b) by done.
    split; [done|]. split.
    + intros Ha. by apply append_not_nil in Ha.
    + intros a' Ha. f_equal. by apply append_char_inj in Ha.
Qed.

Lemma rstrip_char_free ch b : contains_char ch b = false -> rstrip_char ch b = b.
Proof.
  induction b as [|c b IH]; simpl; [done|].
  destruct (char_eqb c ch); simpl; [done|]. intros H. rewrite (IH H).
  by rewrite andb_false_r.
Qed.

Lemma rstrip_char_app ch a b :
  b <> "" -> contains_char ch b = false -> rstrip_char ch (a +:+ b) = a +:+ b.
Proof.
  intros Hne Hb. induction a as [|c a IH];
    rewrite ?append_nil_l, ?append_cons; [by apply rstrip_char_free|].
  simpl. rewrite IH.
  destruct (String.eqb_spec (a +:+ b) "") as [E|_]; [|done].
  by apply append_not_nil in E.
Qed.

End PathStringFacts.

(** ** The file system *)

Section FsFacts.
Import PyStr Py Fs.

Lemma isdir_exists f p : isdir f p = true -> exists_ f p = true.
Proof. unfold isdir, exists_. by destruct (stat f p) as [[]|]. Qed.

Lemma isfile_exists f p : isfile f p = true -> exists_ f p = true.
Proof. unfold isfile, exists_. by destruct (stat f p) as [[]|]. Qed.

Lemma not_exists_stat f p : exists_ f p = false -> stat f p = None.
Proof. unfold exists_. by destruct (stat f p). Qed.

(** ** Lookups after the tree operations *)

Lemma lookup_remove_subtree k t q :
  remove_subtree k t !! q = if within k q then None else t !! q.
Proof.
  unfold remove_subtree. rewrite map_lookup_filter.
  destruct (t !! q) as [n|] eqn:E; simpl; [|by destruct (within k q)].
  destruct (within k q) eqn:W.
  - rewrite option_guard_False; [done|]. simpl. congruence.
  - rewrite option_guard_True; done.
Qed.

Lemma lookup_remove_below k t q :
  remove_below k t !! q = if strictly_within k q then None else t !! q.
Proof.
  unfold remove_below. rewrite map_lookup_filter.
  destruct (t !! q) as [n|] eqn:E; simpl; [|by destruct (strictly_within k q)].
  destruct (strictly_within k q) eqn:W.
  - rewrite option_guard_False; [done|]. simpl. congruence.
  - rewrite option_guard_True; done.
Qed.

Lemma under_app k suf : under k (k ++ suf) = Some suf.
Proof. induction k as [|a k IH]; simpl; [done|]. by rewrite String.eqb_refl. Qed.

Lemma under_Some k q suf : under k q = Some suf -> q = k ++ suf.
Proof.
  revert q. induction k as [|a k IH]; intros [|b q]; simpl; try done.
  - by intros [= ->].
  - by intros [= ->].
  - destruct (String.eqb_spec a b) as [->|]; [|done].
    intros H. by rewrite (IH _ H).
Qed.

Lemma within_refl k : within k k = true.
Proof.
  unfold within. rewrite <- (app_nil_r k) at 2. by rewrite under_app.
Qed.

Lemma strictly_within_refl k : strictly_within k k = false.
Proof.
  unfold strictly_within. rewrite <- (app_nil_r k) at 2. by rewrite under_app.
Qed.

(** ** One file system inside another *)

Lemma sub_fs_refl f : sub_fs f f.
Proof. by split. Qed.

Lemma sub_fs_trans f1 f2 f3 : sub_fs f1 f2 -> sub_fs f2 f3 -> sub_fs f1 f3.
Proof. intros [? ?] [? ?]. split; [by etrans|congruence]. Qed.

Lemma node_at_mono f' f k n :
  sub_fs f' f -> node_at f' k = Some n -> node_at f k = Some n.
Proof.
  intros [Hsub _]. destruct k; simpl; [done|].
  intros H. by eapply lookup_weaken.
Qed.

Lemma walk_mono f' f cur comps k :
  sub_fs f' f -> walk f' cur comps = Some k -> walk f cur comps = Some k.
Proof.
  intros Hsub. revert cur. induction comps as [|c comps IH]; intros cur; simpl;
    [done|].
  destruct (node_at f' cur) as [[| |]|] eqn:E; simpl; try done.
  rewrite (node_at_mono _ _ _ _ Hsub E). simpl. apply IH.
Qed.

Lemma resolve_mono f' f p k :
  sub_fs f' f -> resolve f' p = Some k -> resolve f p = Some k.
Proof.
  intros Hsub. unfold resolve. destruct (String.eqb p ""); [done|].
  destruct Hsub as [Ht Hc]. rewrite Hc. by apply walk_mono.
Qed.

Lemma stat_mono f' f p n :
  sub_fs f' f -> stat f' p = Some n -> stat f p = Some n.
Proof.
  intros Hsub. unfold stat.
  destruct (resolve f' p) as [k|] eqn:E; [|done].
  rewrite (resolve_mono _ _ _ _ Hsub E). by apply node_at_mono.
Qed.

Lemma exists_mono f' f p :
  sub_fs f' f -> exists_ f p = false -> exists_ f' p = false.
Proof.
  intros Hsub. unfold exists_.
  destruct (stat f' p) as [n|] eqn:E; [|done].
  by rewrite (stat_mono _ _ _ _ Hsub E).
Qed.

(** The node a path leads to is fixed by the path and the working
    directory. *)
Lemma walk_lexical f1 f2 cur comps k1 k2 :
  walk f1 cur comps = Some k1 -> walk f2 cur comps = Some k2 -> k1 = k2.
Proof.
  revert cur. induction comps as [|c comps IH]; intros cur; simpl.
  - congruence.
  - destruct (is_dir_node (node_at f1 cur)); [|done].
    destruct (is_dir_node (node_at f2 cur)); [|done]. apply IH.
Qed.

Lemma resolve_lexical f1 f2 p k1 k2 :
  cwd f1 = cwd f2 ->
  resolve f1 p = Some k1 -> resolve f2 p = Some k2 -> k1 = k2.
Proof.
  intros Hc. unfold resolve. destruct (String.eqb p ""); [done|].
  rewrite Hc. apply walk_lexical.
Qed.

(** A path whose node is gone does not exist. *)
Lemma gone_not_exists f f' p k :
  cwd f' = cwd f -> resolve f p = Some k -> node_at f' k = None ->
  exists_ f' p = false.
Proof.
  intros Hc Hr Hk. unfold exists_, stat.
  destruct (resolve f' p) as [k'|] eqn:E; [|done].
  by rewrite (resolve_lexical _ _ _ _ _ Hc E Hr), Hk.
Qed.

(** ** [os.remove] and [shutil.rmtree] *)

Lemma os_remove_sub f p : sub_fs (os_remove f p).1 f.
Proof.
  unfold os_remove. destruct (resolve f p) as [k|]; [|apply sub_fs_refl].
  destruct (node_at f k) as [[data []| |]|]; try apply sub_fs_refl;
    (split; [apply delete_subseteq|done]).
Qed.

Lemma shutil_rmtree_sub f p : sub_fs (shutil_rmtree f p).1 f.
Proof.
  unfold shutil_rmtree. destruct (resolve f p) as [k|]; [|apply sub_fs_refl].
  destruct (node_at f k) as [[| |]|]; try apply sub_fs_refl.
  destruct (first_refused k (tree f));
    [split; [apply map_filter_subseteq|done]|].
  destruct k; [split; [apply map_filter_subseteq|done]|].
  destruct (final_dot p); split; (apply map_filter_subseteq || done).
Qed.

(** The immutable files of a subtree, entry by entry. *)
Lemma immutable_within_nil k t :
  immutable_within k t = [] <->
  (forall q, within k q = true -> is_immutable_node (t !! q) = false).
Proof.
  unfold immutable_within. split.
  - intros E q Hw. destruct (is_immutable_node (t !! q)) eqn:Hq; [|done].
    assert (In q (List.filter
                    (fun q => within k q && is_immutable_node (t !! q))
                    (map fst (map_to_list t)))) as Hin; [|by rewrite E in Hin].
    apply filter_In. split; [|by rewrite Hw, Hq].
    destruct (t !! q) as [n|] eqn:Hn; [|done].
    apply list_elem_of_In, list_elem_of_fmap. exists (q, n).
    split; [done|]. by apply elem_of_map_to_list.
  - intros H.
    destruct (List.filter _ _) as [|q l] eqn:E; [done|].
    assert (In q (q :: l)) as Hin by (by left).
    rewrite <- E in Hin. apply filter_In in Hin as [_ Hq].
    apply andb_true_iff in Hq as [Hw Hq]. by rewrite (H q Hw) in Hq.
Qed.

Lemma immutable_within_sub k f' f :
  sub_fs f' f -> immutable_within k (tree f) = [] ->
  immutable_within k (tree f') = [].
Proof.
  intros [Hsub _] H. apply immutable_within_nil. intros q Hw.
  destruct (tree f' !! q) as [n|] eqn:E; [|done].
  rewrite <- (lookup_weaken _ _ _ _ E Hsub).
  by apply (proj1 (immutable_within_nil k (tree f)) H).
Qed.

(** [os.remove] unlinks a regular file that is not immutable, and a
    named pipe. *)
Lemma os_remove_unlinks f p k :
  resolve f p = Some k ->
  is_file_node (node_at f k) || is_fifo_node (node_at f k) = true ->
  is_immutable_node (node_at f k) = false ->
  os_remove f p = (set_tree f (delete k (tree f)), Ok tt).
Proof.
  intros Hr Hn Hi. unfold os_remove. rewrite Hr.
  by destruct (node_at f k) as [[data []| |]|].
Qed.

(** [shutil.rmtree] removes a directory that holds no immutable file
    and is named neither as the root nor through "." or "..". *)
Lemma shutil_rmtree_removes f p k :
  resolve f p = Some k -> node_at f k = Some Dir -> k <> [] ->
  final_dot p = false -> immutable_within k (tree f) = [] ->
  shutil_rmtree f p = (set_tree f (remove_subtree k (tree f)), Ok tt).
Proof.
  intros Hr Hn Hk Hdot Hi. unfold shutil_rmtree, first_refused.
  rewrite Hr, Hn, Hi. simpl. destruct k; [done|]. by rewrite Hdot.
Qed.

Lemma node_gone_sub f' f k :
  sub_fs f' f -> k <> [] -> node_at f k = None -> node_at f' k = None.
Proof.
  intros [Hsub _] Hk H. destruct k; [done|]. simpl in *.
  destruct (tree f' !! (s :: k)) as [n|] eqn:E; [|done].
  by rewrite (lookup_weaken _ _ _ _ E Hsub) in H.
Qed.

(** [os.remove] takes away one node that is no directory, and nothing
    else. *)
Lemma os_remove_keeps_dirs f p k :
  node_at f k = Some Dir -> node_at (os_remove f p).1 k = Some Dir.
Proof.
  intros Hk. unfold os_remove.
  destruct (resolve f p) as [kp|]; [|done].
  destruct (node_at f kp) as [[data []| |]|] eqn:E; try done;
    (simpl; destruct k as [|c k]; [done|]; simpl in *;
     destruct (decide (kp = c :: k)) as [->|Hne];
     [simpl in E; rewrite Hk in E; discriminate
     |by rewrite lookup_delete_ne]).
Qed.

End FsFacts.

Section ResolveFacts.
Import PyStr Py Fs PosixPath.

Lemma walk_app f cur c1 c2 :
  walk f cur (c1 ++ c2)
  = match walk f cur c1 with
    | Some k => walk f k c2
    | None => None
    end.
Proof.
  revert cur. induction c1 as [|c c1 IH]; intros cur; simpl; [done|].
  destruct (is_dir_node (node_at f cur)); [apply IH|done].
Qed.

Lemma walk_snoc f cur init c k :
  walk f cur (init ++ [c]) = Some k ->
  exists k1, walk f cur init = Some k1
             /\ node_at f k1 = Some Dir /\ k = step k1 c.
Proof.
  rewrite walk_app. destruct (walk f cur init) as [k1|]; [|done]. simpl.
  destruct (node_at f k1) as [[| |]|] eqn:E; simpl; try done.
  intros [= <-]. by exists k1.
Qed.

Lemma step_proper k b : proper_name b -> step k b = k ++ [b].
Proof.
  intros (H1 & H2 & H3 & _). unfold step.
  destruct (String.eqb_spec b ""); [done|].
  destruct (String.eqb_spec b "."); [done|].
  by destruct (String.eqb_spec b "..").
Qed.

Lemma isabs_append dst y : dst <> "" -> isabs (dst +:+ y) = isabs dst.
Proof.
  intros H. destruct dst as [|c dst]; [done|]. rewrite append_cons.
  unfold isabs, sep_str. by rewrite !startswith_slash.
Qed.

Lemma resolve_nonempty f p k : resolve f p = Some k -> p <> "".
Proof. unfold resolve. by destruct (String.eqb_spec p ""). Qed.

(** The entry named [b] of the directory [dst]: where
    [os.path.join dst b] leads. *)
Lemma resolve_join f dst b kd :
  resolve f dst = Some kd -> node_at f kd = Some Dir ->
  contains_char sep b = false ->
  resolve f (join dst b) = Some (step kd b).
Proof.
  intros Hr Hd Hb. pose proof (resolve_nonempty _ _ _ Hr) as Hne.
  destruct (join_shape dst b Hne Hb) as (x & Hx & Hj & Hcase).
  rewrite Hj. unfold resolve in *.
  destruct (String.eqb_spec dst ""); [done|].
  assert (x <> "") as Hxne.
  { destruct Hcase as [->|[-> _]]; [done|]. by apply append_not_nil. }
  destruct (String.eqb_spec (x +:+ b) "") as [E|_].
  { apply (f_equal String.length) in E. rewrite length_append in E.
    destruct x; [done|]. simpl in E. lia. }
  assert (isabs (x +:+ b) = isabs dst) as ->.
  { destruct Hcase as [->|[-> _]]; [by apply isabs_append|].
    rewrite append_assoc. by apply isabs_append. }
  set (start := if isabs dst then [] else cwd f) in *.
  destruct Hx as [->|[a Ha]]; [done|].
  destruct (split_prefix_name x b (or_intror (ex_intro _ a Ha)) Hb)
    as (init & Hs & _ & Hinit).
  rewrite Hs, (Hinit a Ha), walk_app.
  destruct Hcase as [->|[-> _]].
  - (* dst ends in a slash *)
    rewrite Ha in Hr. change (a +:+ "/") with (a +:+ String sep "") in Hr.
    rewrite split_app in Hr. simpl in Hr.
    apply walk_snoc in Hr as (k1 & -> & Hk1 & ->).
    simpl. by rewrite Hk1.
  - apply append_char_inj in Ha as <-. rewrite Hr. simpl. by rewrite Hd.
Qed.

(** A path that ends in a proper name leads to an entry of that
    name. *)
Lemma resolve_proper f p k :
  resolve f p = Some k -> proper_name (basename p) ->
  exists k1, k = k1 ++ [basename p] /\ node_at f k1 = Some Dir.
Proof.
  intros Hr Hb. destruct (path_shape p) as (x & Hx & Hp).
  unfold resolve in Hr. destruct (String.eqb p ""); [done|].
  destruct (split_prefix_name x (basename p) Hx) as (init & Hs & _);
    [by destruct Hb as (_ & _ & _ & ?)|].
  rewrite Hp, Hs in Hr. apply walk_snoc in Hr as (k1 & _ & Hk1 & ->).
  exists k1. by rewrite step_proper.
Qed.

Lemma final_dot_proper x b :
  dir_prefix x -> proper_name b -> final_dot (x +:+ b) = false.
Proof.
  intros Hx (H1 & H2 & H3 & H4). unfold final_dot, final_component.
  rewrite rstrip_char_app by done.
  destruct (split_prefix_name x b Hx H4) as (init & -> & _).
  rewrite last_snoc.
  destruct (String.eqb_spec b "."); [done|].
  by destruct (String.eqb_spec b "..").
Qed.

Lemma final_dot_path p : proper_name (basename p) -> final_dot p = false.
Proof.
  intros Hb. destruct (path_shape p) as (x & Hx & Hp). rewrite Hp.
  by apply final_dot_proper.
Qed.

Lemma final_dot_join dst b :
  dst <> "" -> proper_name b -> final_dot (join dst b) = false.
Proof.
  intros Hne Hb. destruct (join_shape dst b Hne) as (x & Hx & -> & _);
    [by destruct Hb as (_ & _ & _ & ?)|].
  by apply final_dot_proper.
Qed.

Lemma rstrip_path p : proper_name (basename p) -> rstrip_char sep p = p.
Proof.
  intros (H1 & _ & _ & H4). destruct (path_shape p) as (x & Hx & Hp).
  rewrite Hp. by apply rstrip_char_app.
Qed.

Lemma named_as_it_is f p :
  rstrip_char sep p = p -> named f p = resolve f p.
Proof. intros E. unfold named. rewrite E. by destruct (String.eqb p ""). Qed.

Lemma trailing_slash_none p : rstrip_char sep p = p -> trailing_slash p = false.
Proof. intros E. unfold trailing_slash. by rewrite E, String.eqb_refl. Qed.

Lemma rstrip_join dst b :
  dst <> "" -> proper_name b ->
  rstrip_char sep (join dst b) = join dst b.
Proof.
  intros Hne (H1 & _ & _ & H4).
  destruct (join_shape dst b Hne H4) as (x & Hx & -> & _).
  by apply rstrip_char_app.
Qed.

End ResolveFacts.

Section TreeFacts.
Import PyStr Py Fs PosixPath.

Lemma within_true k q : within k q = true <-> exists suf, q = k ++ suf.
Proof.
  unfold within. split.
  - destruct (under k q) as [suf|] eqn:E; [|done].
    intros _. exists suf. by apply under_Some.
  - intros [suf ->]. by rewrite under_app.
Qed.

Lemma under_None k q : under k q = None <-> within k q = false.
Proof. unfold within. by destruct (under k q). Qed.

Lemma elem_of_subtree_list src t suf n :
  (suf, n) ∈ omap (fun e : key * node => suf ← under src e.1; Some (suf, e.2))
                  (map_to_list t) <->
  t !! (src ++ suf) = Some n.
Proof.
  rewrite list_elem_of_omap. split.
  - intros ([q n'] & Hin & Hg). simpl in Hg.
    destruct (under src q) as [suf'|] eqn:E; simpl in Hg; [|done].
    injection Hg as <- <-. apply under_Some in E as ->.
    by apply elem_of_map_to_list.
  - intros H. exists (src ++ suf, n). split; [by apply elem_of_map_to_list|].
    simpl. by rewrite under_app.
Qed.

Lemma lookup_subtree src t suf : subtree src t !! suf = t !! (src ++ suf).
Proof.
  unfold subtree. apply option_eq. intros n. split.
  - intros H. apply elem_of_list_to_map_2 in H.
    by apply elem_of_subtree_list in H.
  - intros H. apply elem_of_list_to_map_1'.
    + intros n' Hn'. apply elem_of_subtree_list in Hn'. congruence.
    + by apply elem_of_subtree_list.
Qed.

Local Instance app_key_inj (dst : key) : Inj (=) (=) (app dst).
Proof. intros x y H. by apply app_inv_head in H. Qed.

Lemma lookup_graft sub dst t q :
  graft sub dst t !! q
  = match under dst q with
    | Some suf => sub !! suf
    | None => t !! q
    end.
Proof.
  unfold graft. rewrite lookup_union, lookup_remove_subtree. unfold within.
  destruct (under dst q) as [suf|] eqn:E.
  - apply under_Some in E as ->. rewrite lookup_kmap by apply _.
    by destruct (sub !! suf).
  - assert (kmap (app dst) sub !! q = None) as ->.
    { apply lookup_kmap_None; [apply _|]. intros suf ->.
      by rewrite under_app in E. }
    by destruct (t !! q).
Qed.

Lemma lookup_move_subtree ks kd t q :
  move_subtree ks kd t !! q
  = match under kd q with
    | Some suf => t !! (ks ++ suf)
    | None => if within ks q then None else t !! q
    end.
Proof.
  unfold move_subtree. rewrite lookup_graft.
  destruct (under kd q); [apply lookup_subtree|apply lookup_remove_subtree].
Qed.

(** ** Well-formed trees: every node hangs in a directory *)

Lemma wf_prefix f k1 k2 :
  wf_fs f -> is_Some (node_at f (k1 ++ k2)) -> k2 <> [] ->
  node_at f k1 = Some Dir.
Proof.
  intros Hwf [n Hn] Hk2.
  destruct (k1 ++ k2) as [|c k] eqn:E.
  { apply app_eq_nil in E as [_ ->]. done. }
  simpl in Hn. specialize (Hwf (c :: k) n Hn). cbv beta in Hwf.
  rewrite Forall_forall in Hwf.
  specialize (Hwf (length k1)). rewrite <- E in Hwf.
  rewrite take_app_length in Hwf. apply Hwf.
  apply elem_of_seq. rewrite length_app. destruct k2; [done|]. simpl. lia.
Qed.

Lemma wf_removelast f k :
  wf_fs f -> is_Some (node_at f k) -> is_Some (node_at f (removelast k)).
Proof.
  intros Hwf Hk. destruct (decide (k = [])) as [->|Hne]; [done|].
  destruct (exists_last Hne) as (k1 & c & ->).
  rewrite removelast_last. exists Dir. by eapply wf_prefix.
Qed.

(** Nothing exists below a node that does not exist. *)
Lemma wf_nothing_below f k q :
  wf_fs f -> node_at f k = None -> within k q = true -> node_at f q = None.
Proof.
  intros Hwf Hk Hw. apply within_true in Hw as [suf ->].
  destruct (decide (suf = [])) as [->|Hne]; [by rewrite app_nil_r|].
  destruct (node_at f (k ++ suf)) eqn:E; [|done].
  rewrite (wf_prefix f k suf Hwf) in Hk; [done| |done]. by rewrite E.
Qed.

Lemma within_app k q s : within k q = true -> within k (q ++ s) = true.
Proof.
  intros H. apply within_true in H as [suf ->]. apply within_true.
  exists (suf ++ s). by rewrite app_assoc.
Qed.

Lemma strictly_within_app k q s :
  strictly_within k q = true -> strictly_within k (q ++ s) = true.
Proof.
  unfold strictly_within. destruct (under k q) as [[|c r]|] eqn:E; try done.
  apply under_Some in E as ->. by rewrite <- app_assoc, under_app.
Qed.

Lemma removed_before_app a s b :
  removed_before a b = true -> removed_before (a ++ s) b = true.
Proof.
  revert b. induction a as [|x a IH]; intros [|y b]; simpl; try done.
  destruct (String.eqb x y); [apply IH|done].
Qed.

Lemma lookup_remove_until k q0 t q :
  remove_until k q0 t !! q
  = if within k q && removed_before q q0 then None else t !! q.
Proof.
  unfold remove_until. rewrite map_lookup_filter.
  destruct (t !! q) as [n|] eqn:E; simpl;
    [|by destruct (within k q && removed_before q q0)].
  destruct (within k q && removed_before q q0) eqn:W.
  - rewrite option_guard_False; [done|]. simpl. congruence.
  - rewrite option_guard_True; done.
Qed.

(** A part of a well-formed tree that has, with each of its nodes, the
    directories above it, is well formed. *)
Lemma wf_sub f' f :
  wf_fs f -> sub_fs f' f ->
  (forall q s n, tree f' !! (q ++ s) = Some n -> q <> [] ->
                 is_Some (tree f' !! q)) ->
  wf_fs f'.
Proof.
  intros Hwf [Hsub _] Hclosed q n Hq. cbv beta. rewrite Forall_forall.
  intros i Hi. apply elem_of_seq in Hi.
  destruct (decide (firstn i q = [])) as [E|Hne]; [by rewrite E|].
  destruct (Hclosed (firstn i q) (skipn i q) n) as [n1 Hn1];
    [by rewrite take_drop|done|].
  assert (node_at f' (firstn i q) = Some n1) as ->
    by (by destruct (firstn i q)).
  f_equal. pose proof (lookup_weaken _ _ _ _ Hn1 Hsub) as Hf.
  assert (node_at f (firstn i q) = Some Dir) as Hd.
  { apply (wf_prefix f (firstn i q) (skipn i q) Hwf).
    - rewrite take_drop. destruct q; [simpl in Hi; lia|].
      exists n. simpl. by eapply lookup_weaken.
    - intros E. apply (f_equal length) in E. rewrite length_drop in E.
      simpl in E. lia. }
  destruct (firstn i q); [done|]. simpl in Hd. congruence.
Qed.

(** A well-formed tree stays well formed when whole subtrees go. *)
Lemma wf_pruned f t' (gone : key -> bool) :
  wf_fs f ->
  (forall q, t' !! q = if gone q then None else tree f !! q) ->
  (forall q s, gone q = true -> gone (q ++ s) = true) ->
  wf_fs (set_tree f t').
Proof.
  intros Hwf Hlook Hdown. apply (wf_sub _ f Hwf).
  - split; [|done]. simpl. apply map_subseteq_spec. intros q n.
    rewrite Hlook. by destruct (gone q).
  - simpl. intros q s n Hq Hne. rewrite Hlook in Hq. rewrite Hlook.
    destruct (gone q) eqn:G; [by rewrite (Hdown q s G) in Hq|].
    destruct (gone (q ++ s)); [done|].
    destruct (decide (s = [])) as [->|Hs]; [rewrite app_nil_r in Hq; eauto|].
    assert (node_at f q = Some Dir) as Hd.
    { apply (wf_prefix f q s Hwf); [|done]. exists n.
      destruct (q ++ s) eqn:E; [by destruct q|done]. }
    destruct q; [done|]. simpl in Hd. eauto.
Qed.

Lemma wf_os_remove f p : wf_fs f -> wf_fs (os_remove f p).1.
Proof.
  intros Hwf. unfold os_remove.
  destruct (resolve f p) as [k|]; [|done].
  destruct (node_at f k) as [n|] eqn:Hn; [|done].
  assert (n <> Dir -> wf_fs (set_tree f (delete k (tree f)))) as Hdel.
  { intros Hnd. apply (wf_sub _ f Hwf).
    - split; [apply delete_subseteq|done].
    - simpl. intros q s n' Hq Hne.
      destruct (decide (s = [])) as [->|Hs]; [rewrite app_nil_r in Hq; eauto|].
      apply lookup_delete_Some in Hq as [_ Hq].
      assert (node_at f q = Some Dir) as Hd.
      { apply (wf_prefix f q s Hwf); [|done]. exists n'.
        destruct (q ++ s) eqn:E; [by destruct q|done]. }
      rewrite lookup_delete_ne; [destruct q; [done|]; simpl in Hd; eauto|].
      intros ->. congruence. }
  destruct n as [data []| |]; simpl; try done; by apply Hdel.
Qed.

Lemma wf_shutil_rmtree f p : wf_fs f -> wf_fs (shutil_rmtree f p).1.
Proof.
  intros Hwf. unfold shutil_rmtree.
  destruct (resolve f p) as [k|]; [|done].
  destruct (node_at f k) as [[| |]|]; try done.
  assert (wf_fs (set_tree f (remove_below k (tree f)))) as Hbelow.
  { apply (wf_pruned f _ (strictly_within k) Hwf).
    - intros q. apply lookup_remove_below.
    - intros q s. apply strictly_within_app. }
  destruct (first_refused k (tree f)) as [q0|].
  - simpl.
    apply (wf_pruned f _ (fun q => within k q && removed_before q q0) Hwf).
    + intros q. apply lookup_remove_until.
    + intros q s H. apply andb_true_iff in H as [H1 H2].
      by rewrite (within_app _ _ s H1), (removed_before_app _ s _ H2).
  - destruct k as [|c k]; [done|]. destruct (final_dot p); [done|]. simpl.
    apply (wf_pruned f _ (within (c :: k)) Hwf).
    + intros q. apply lookup_remove_subtree.
    + intros q s. apply within_app.
Qed.

(** A path without ".." leads down from where it starts, and it leads
    to the same node in a well-formed part of the tree that still has
    the node. *)
Lemma step_extends cur c : c <> ".." -> exists s, step cur c = cur ++ s.
Proof.
  intros Hc. unfold step.
  destruct (String.eqb c "" || String.eqb c ".");
    [exists []; by rewrite app_nil_r|].
  destruct (String.eqb_spec c ".."); [done|]. by exists [c].
Qed.

Lemma walk_extends f cur comps k :
  ~ In ".." comps -> walk f cur comps = Some k -> exists s, k = cur ++ s.
Proof.
  revert cur. induction comps as [|c comps IH]; intros cur Hno; simpl.
  - intros [= <-]. exists []. by rewrite app_nil_r.
  - destruct (is_dir_node (node_at f cur)); [|done]. intros Hw.
    destruct (step_extends cur c) as [s1 E1]; [intros ->; apply Hno; by left|].
    destruct (IH (step cur c)) as [s2 E2];
      [intros H; apply Hno; by right|done|].
    exists (s1 ++ s2). by rewrite E2, E1, app_assoc.
Qed.

Lemma walk_again f' f cur comps k :
  wf_fs f' -> sub_fs f' f -> ~ In ".." comps ->
  walk f cur comps = Some k -> is_Some (node_at f' k) ->
  walk f' cur comps = Some k.
Proof.
  intros Hwf Hsub. revert cur.
  induction comps as [|c comps IH]; intros cur Hno; simpl; [done|].
  destruct (is_dir_node (node_at f cur)) eqn:Hd; [|done]. intros Hw Hk.
  assert (node_at f' cur = Some Dir) as ->.
  { destruct (walk_extends f cur (c :: comps) k Hno) as [s E];
      [simpl; by rewrite Hd|].
    destruct (decide (s = [])) as [->|Hs].
    - rewrite app_nil_r in E. subst k. destruct Hk as [n Hn].
      rewrite Hn. rewrite (node_at_mono _ _ _ _ Hsub Hn) in Hd.
      by destruct n.
    - subst k. by apply (wf_prefix f' cur s Hwf). }
  simpl. apply IH; [|done|done]. intros H. apply Hno. by right.
Qed.

Lemma resolve_again f' f p k :
  wf_fs f' -> sub_fs f' f -> ~ In ".." (split sep p) ->
  resolve f p = Some k -> is_Some (node_at f' k) ->
  resolve f' p = Some k.
Proof.
  intros Hwf Hsub Hno. unfold resolve.
  destruct (String.eqb p ""); [done|].
  destruct Hsub as [Ht Hc]. rewrite Hc.
  by apply walk_again.
Qed.

(** The named pipes of a subtree, entry by entry. *)
Lemma pipes_within_nil ks t :
  pipes_within ks t = [] <-> (forall suf, t !! (ks ++ suf) <> Some Fifo).
Proof.
  unfold pipes_within. split.
  - intros E suf Hs.
    pose proof (merge_sort_Permutation met_before
                  (map fst (map_to_list
                              (filter (fun e : key * node => e.2 = Fifo)
                                      (subtree ks t))))) as HP.
    rewrite E in HP. apply Permutation_nil_l in HP. symmetry in HP.
    apply map_eq_nil, map_to_list_empty_iff in HP.
    assert (filter (fun e : key * node => e.2 = Fifo) (subtree ks t) !! suf
            = Some Fifo) as Hin; [|by rewrite HP in Hin].
    apply map_lookup_filter_Some. by rewrite lookup_subtree.
  - intros H.
    assert (filter (fun e : key * node => e.2 = Fifo) (subtree ks t) = ∅)
      as ->; [|done].
    apply map_empty. intros suf. apply map_lookup_filter_None. right.
    intros n Hn Hf. simpl in Hf. subst n. rewrite lookup_subtree in Hn.
    by apply (H suf).
Qed.

(** In a well-formed tree, a directory that has no entry of the name
    [b] shows that [b] is a proper name. *)
Lemma missing_entry_proper f dst b kd :
  wf_fs f -> resolve f dst = Some kd -> node_at f kd = Some Dir ->
  contains_char sep b = false -> exists_ f (join dst b) = false ->
  proper_name b /\ node_at f (kd ++ [b]) = None.
Proof.
  intros Hwf Hr Hd Hb Hex. apply not_exists_stat in Hex.
  unfold stat in Hex. rewrite (resolve_join f dst b kd Hr Hd Hb) in Hex.
  unfold step in Hex.
  destruct (String.eqb_spec b "") as [->|H1]; [simpl in Hex; congruence|].
  destruct (String.eqb_spec b ".") as [->|H2]; [simpl in Hex; congruence|].
  simpl in Hex.
  destruct (String.eqb_spec b "..") as [->|H3].
  - destruct (wf_removelast f kd Hwf) as [n Hn]; [by rewrite Hd|]. congruence.
  - done.
Qed.

End TreeFacts.

(** ** Moving or copying a node into a directory that has no entry of
    its name *)

Section FreshTarget.
Import PyStr Py Fs PosixPath.

Variables (f : filesys) (p dst : string) (ks kd : key) (ns : node).
Hypothesis Hp : resolve f p = Some ks.
Hypothesis Hsrc : node_at f ks = Some ns.
Hypothesis Hd : resolve f dst = Some kd.
Hypothesis Hdir : node_at f kd = Some Dir.
Hypothesis Hb : proper_name (basename p).
Hypothesis Hfree : node_at f (kd ++ [basename p]) = None.
Hypothesis Hout : within ks kd = false.

Local Abbreviation target := (join dst (basename p)).
Local Abbreviation kt := (kd ++ [basename p]).
Local Abbreviation copied := (copied f p ks kd ns).

Lemma target_resolve : resolve f target = Some kt.
Proof.
  rewrite (resolve_join f dst (basename p) kd Hd Hdir);
    [by rewrite step_proper|by destruct Hb as (_ & _ & _ & ?)].
Qed.

Lemma target_stat : stat f target = None.
Proof. unfold stat. by rewrite target_resolve. Qed.

Lemma source_stat : stat f p = Some ns.
Proof. unfold stat. by rewrite Hp. Qed.

Lemma dst_nonempty : dst <> "".
Proof. by eapply resolve_nonempty. Qed.

Lemma source_not_root : ks <> [].
Proof using Hp Hb.
  destruct (resolve_proper f p ks Hp Hb) as (k1 & E & _).
  intros Hnil. rewrite Hnil in E. by destruct k1.
Qed.

Lemma source_not_target : ks <> kt.
Proof. intros E. rewrite E in Hsrc. congruence. Qed.

Lemma target_outside : within ks kt = false.
Proof.
  destruct (within ks kt) eqn:W; [|done].
  apply within_true in W as [suf E].
  destruct (decide (suf = [])) as [->|Hne].
  - rewrite app_nil_r in E. by destruct source_not_target.
  - destruct (exists_last Hne) as (suf' & c & ->).
    rewrite app_assoc in E. apply app_inj_tail in E as [E _].
    assert (within ks kd = true) by (apply within_true; by exists suf').
    congruence.
Qed.

Lemma os_rename_fresh :
  is_immutable_node (Some ns) = false ->
  os_rename f p target
  = (set_tree f (move_subtree ks kt (tree f)), Ok tt).
Proof.
  intros Hmay. unfold os_rename.
  pose proof (rstrip_path p Hb) as Ep.
  pose proof (rstrip_join dst _ dst_nonempty Hb) as Et.
  rewrite (named_as_it_is f p Ep), (named_as_it_is f target Et).
  rewrite (trailing_slash_none p Ep), (trailing_slash_none target Et).
  rewrite Hp, target_resolve.
  rewrite (bool_decide_false (ks = [])) by apply source_not_root.
  rewrite (bool_decide_false (kt = [])) by (by destruct kd).
  rewrite (final_dot_path p Hb), (final_dot_join dst _ dst_nonempty Hb).
  cbn [orb]. cbv iota. rewrite Hsrc, andb_false_r.
  rewrite (bool_decide_false (ks = kt)) by apply source_not_target.
  rewrite target_outside, andb_false_r, Hfree, Hmay. simpl.
  by destruct ns.
Qed.

Lemma shutil_move_fresh :
  is_immutable_node (Some ns) = false ->
  shutil_move f p target
  = (set_tree f (move_subtree ks kt (tree f)), Ok tt).
Proof.
  intros Hmay. unfold shutil_move, isdir. rewrite target_stat. simpl.
  by rewrite os_rename_fresh.
Qed.

Lemma shutil_copy2_fresh data imm :
  ns = File data imm ->
  shutil_copy2 f p target = (set_tree f copied, Ok tt).
Proof.
  intros E. unfold shutil_copy2, isdir, copied.
  rewrite target_stat. cbn [is_dir_node is_fifo_node]. cbv zeta iota.
  unfold samefile. rewrite Hp, target_resolve.
  rewrite (bool_decide_false (ks = kt)) by apply source_not_target.
  cbn [andb]. cbv iota.
  rewrite source_stat, E. cbn [is_fifo_node]. cbv iota.
  rewrite target_stat. cbn [is_fifo_node]. cbv iota.
  rewrite (trailing_slash_none target
             (rstrip_join dst _ dst_nonempty Hb)). cbn [andb]. cbv iota.
  by rewrite Hfree.
Qed.

Lemma walk_mk_of_walk cur comps k :
  walk f cur comps = Some k ->
  walk_mk (tree f) cur comps = (tree f, inl k).
Proof.
  revert cur. induction comps as [|c comps IH]; intros cur; simpl;
    [by intros [= ->]|].
  destruct cur as [|c0 cur].
  - simpl. apply IH.
  - simpl. destruct (tree f !! (c0 :: cur)) as [[| |]|]; simpl; try done.
    apply IH.
Qed.

Lemma os_makedirs_fresh :
  os_makedirs f target = (set_tree f (<[kt := Dir]> (tree f)), Ok tt).
Proof.
  unfold os_makedirs, exists_.
  rewrite (rstrip_join dst _ dst_nonempty Hb), target_stat.
  pose proof target_resolve as Hr. unfold resolve in Hr.
  destruct (String.eqb target ""); [done|]. simpl.
  rewrite (walk_mk_of_walk _ _ _ Hr).
  destruct kt as [|c k] eqn:E; [by destruct kd|].
  simpl in Hfree. by rewrite Hfree.
Qed.

Lemma shutil_copytree_fresh :
  ns = Dir -> pipes_within ks (tree f) = [] ->
  shutil_copytree f p target = (set_tree f copied, Ok tt).
Proof.
  intros E Hpipes. unfold shutil_copytree, copied.
  rewrite Hp, Hsrc, E, os_makedirs_fresh.
  assert (resolve (set_tree f (<[kt:=Dir]> (tree f))) target = Some kt) as ->.
  { eapply resolve_mono; [|apply target_resolve].
    split; [|done]. simpl. apply insert_subseteq.
    destruct kt eqn:Ek; [by destruct kd|]. exact Hfree. }
  pose proof target_outside as W. apply under_None in W.
  by rewrite W, Hpipes.
Qed.

Lemma isdir_source : isdir f p = is_dir_node (Some ns).
Proof. unfold isdir. by rewrite source_stat. Qed.

End FreshTarget.

(** ** The file-operation service *)

Section FileOperationServiceFacts.
Import PyStr Py Fs SecurityService FileOperationService.
Variable u : user.

Lemma copy_to_clipboard_ok s paths :
  clipboard_ok (clipboard (copy_to_clipboard s paths)).
Proof. destruct paths; simpl; auto. Qed.

Lemma cut_to_clipboard_ok s paths :
  clipboard_ok (clipboard (cut_to_clipboard s paths)).
Proof. destruct paths; simpl; auto. Qed.

Lemma paste_from_clipboard_ok s w d :
  clipboard_ok (clipboard s) ->
  clipboard_ok (clipboard (paste_from_clipboard u s w d).1.1).
Proof.
  intros H. unfold paste_from_clipboard.
  destruct (clipboard s) as [|action paths] eqn:E; simpl; [by rewrite E|].
  destruct (negb _); simpl; [by rewrite E|].
  destruct (is_nil paths); simpl; [by rewrite E|].
  destruct (_ && _); simpl; [done|by rewrite E].
Qed.

Lemma run_call_ok st c :
  clipboard_ok (clipboard st.1) -> clipboard_ok (clipboard (run_call u st c).1).
Proof.
  destruct c; simpl; intros H.
  - apply copy_to_clipboard_ok.
  - apply cut_to_clipboard_ok.
  - by apply paste_from_clipboard_ok.
Qed.

Lemma run_calls_ok cs : forall st,
  clipboard_ok (clipboard st.1) -> clipboard_ok (clipboard (run_calls u st cs).1).
Proof.
  induction cs as [|c cs IH]; intros st H; simpl; [done|].
  apply IH. by apply run_call_ok.
Qed.

(** C10.  After any sequence of copy, cut and paste calls on a fresh
    service, the clipboard is empty or holds the action "copy" or "cut"
    with a non-empty list of paths; copying or cutting the empty list
    empties the clipboard, so that [get_clipboard_status] says nothing
    can be pasted. *)
Theorem clipboard_invariant (w : world) (cs : list clipboard_call)
    (s : service) :
  clipboard_ok (clipboard (run_calls u (init, w) cs).1)
  /\ clipboard (copy_to_clipboard s []) = ClipEmptyList
  /\ clipboard (cut_to_clipboard s []) = ClipEmptyList
  /\ get_clipboard_status (copy_to_clipboard s []) = false
  /\ get_clipboard_status (cut_to_clipboard s []) = false.
Proof.
  split; [|done]. by apply run_calls_ok.
Qed.

Lemma rename_item_same_name_world w old_path :
  (rename_item u w old_path (PosixPath.basename old_path)).1 = w.
Proof.
  unfold rename_item.
  destruct (exists_ (fs w) old_path); simpl; [|done].
  destruct (String.eqb (strip _) ""); simpl; [done|].
  by rewrite String.eqb_refl.
Qed.

(** C9, as the code has it.  Renaming an existing path to its own base
    name changes nothing in the file system and shows no dialog; it
    reports success when the base name is not blank, and when the base
    name is blank or empty it reports failure with the message that the
    new name cannot be empty. *)
Theorem rename_to_own_name (w : world) (old_path : string) :
  exists_ (fs w) old_path = true ->
  (rename_item u w old_path (PosixPath.basename old_path)).1 = w
  /\ (strip (PosixPath.basename old_path) <> "" ->
      rename_item u w old_path (PosixPath.basename old_path)
      = (w, (true, "No change in name.")))
  /\ (strip (PosixPath.basename old_path) = "" ->
      rename_item u w old_path (PosixPath.basename old_path)
      = (w, (false, "New name cannot be empty."))).
Proof.
  intros Hex. split; [apply rename_item_same_name_world|].
  unfold rename_item. rewrite Hex. simpl.
  destruct (String.eqb_spec (strip (PosixPath.basename old_path)) "");
    split; try done.
  intros _. by rewrite String.eqb_refl.
Qed.

End FileOperationServiceFacts.

Section RenameExamples.
Import PyStr Py Fs SecurityService FileOperationService.

Lemma rename_to_own_name_witness :
  exists_ (fs Sample.sample_world) "/docs/report.txt" = true
  /\ rename_item always_yes Sample.sample_world "/docs/report.txt" "report.txt"
     = (Sample.sample_world, (true, "No change in name."))
  /\ exists_ (fs Sample.sample_world) "/docs/old/" = true
  /\ rename_item always_yes Sample.sample_world "/docs/old/" ""
     = (Sample.sample_world, (false, "New name cannot be empty.")).
Proof.
  split; [reflexivity|]. split.
  - apply (rename_to_own_name always_yes Sample.sample_world
             "/docs/report.txt"); [reflexivity|]. vm_compute. discriminate.
  - split; [reflexivity|].
    apply (rename_to_own_name always_yes Sample.sample_world "/docs/old/");
      reflexivity.
Defined.

(** C9, as stated, fails: a file whose name is one blank exists, and
    renaming it to that same name is refused. *)
Lemma rename_blank_name_refused :
  exists_ (fs Sample.sample_world) "/docs/ " = true
  /\ PosixPath.basename "/docs/ " = " "
  /\ rename_item always_yes Sample.sample_world "/docs/ " " "
     = (Sample.sample_world, (false, "New name cannot be empty.")).
Proof. vm_compute. done. Qed.

End RenameExamples.

Section DeleteItemsFacts.
Import PyStr Py Fs SecurityService FileOperationService.

Lemma removable_node f p k :
  removable f p k ->
  stat f p = node_at f k
  /\ (isfile f p = true -> os_remove f p
                           = (set_tree f (delete k (tree f)), Ok tt))
  /\ (isdir f p = true -> shutil_rmtree f p
                          = (set_tree f (remove_subtree k (tree f)), Ok tt)).
Proof.
  intros (Hr & Hk & Hn & _ & Hdot & Hi).
  assert (stat f p = node_at f k) as Hs by (unfold stat; by rewrite Hr).
  split; [done|]. unfold isfile, isdir. rewrite Hs. split.
  - intros Hf. apply os_remove_unlinks; [done|by rewrite Hf|].
    destruct k as [|c k]; [done|]. simpl.
    apply (proj1 (immutable_within_nil _ _) Hi). apply within_refl.
  - intros Hd. apply shutil_rmtree_removes; try done.
    by destruct (node_at f k) as [[| |]|].
Qed.

(** One turn of the deletion loop: the tree only shrinks and stays well
    formed, the turn is counted as a deletion or as an error, a path
    that is missing is an error, and the node of a path that can be
    removed is gone afterwards. *)
Lemma delete_one_spec f p n errs :
  let '(f', n', errs') := delete_one f p n errs in
  sub_fs f' f
  /\ (wf_fs f -> wf_fs f')
  /\ (n' + length errs' = S (n + length errs))%nat
  /\ (length errs <= length errs')%nat
  /\ (exists_ f p = false -> (length errs < length errs')%nat)
  /\ (forall k, removable f p k -> node_at f' k = None).
Proof.
  unfold delete_one, islink. rewrite orb_false_r.
  destruct (isfile f p) eqn:Hfile.
  - pose proof (os_remove_sub f p) as Hsub.
    pose proof (wf_os_remove f p) as Hwf.
    assert (forall k, removable f p k ->
              (os_remove f p).2 = Ok tt
              /\ node_at (os_remove f p).1 k = None) as Hgone.
    { intros k Hk. destruct (removable_node f p k Hk) as (_ & Hrm & _).
      rewrite (Hrm Hfile). split; [done|]. destruct Hk as (_ & Hk & _).
      destruct k; [done|]. simpl. apply lookup_delete_eq. }
    apply isfile_exists in Hfile.
    destruct (os_remove f p) as [f' [[]|e]]; simpl in *;
      rewrite ?length_app; simpl;
      (split; [done|]; split; [done|]; split; [lia|]; split; [lia|];
       split; [congruence|]);
      intros k Hk; by destruct (Hgone k Hk).
  - destruct (isdir f p) eqn:Hdir.
    + pose proof (shutil_rmtree_sub f p) as Hsub.
      pose proof (wf_shutil_rmtree f p) as Hwf.
      assert (forall k, removable f p k ->
                (shutil_rmtree f p).2 = Ok tt
                /\ node_at (shutil_rmtree f p).1 k = None) as Hgone.
      { intros k Hk. destruct (removable_node f p k Hk) as (_ & _ & Hrm).
        rewrite (Hrm Hdir). split; [done|]. destruct Hk as (_ & Hk & _).
        destruct k; [done|]. simpl.
        by rewrite lookup_remove_subtree, within_refl. }
      apply isdir_exists in Hdir.
      destruct (shutil_rmtree f p) as [f' [[]|e]]; simpl in *;
        rewrite ?length_app; simpl;
        (split; [done|]; split; [done|]; split; [lia|]; split; [lia|];
         split; [congruence|]);
        intros k Hk; by destruct (Hgone k Hk).
    + rewrite length_app. simpl.
      split; [apply sub_fs_refl|]. split; [done|]. split; [lia|].
      split; [lia|]. split; [lia|]. intros k Hk.
      destruct (removable_node f p k Hk) as (Hs & _).
      destruct Hk as (_ & _ & Hn & _). unfold isfile, isdir in *.
      rewrite Hs in Hfile, Hdir. by rewrite Hfile, Hdir in Hn.
Qed.

(** A path that can be removed can still be removed after other
    removals, unless its node is gone by then. *)
Lemma removable_later f' f p k :
  wf_fs f' -> sub_fs f' f -> removable f p k ->
  is_Some (node_at f' k) -> removable f' p k.
Proof.
  intros Hwf Hsub (Hr & Hk & Hn & Hno & Hdot & Hi) [n' Hn'].
  split; [by apply (resolve_again f' f)|]. split; [done|].
  split; [|split; [done|split; [done|by eapply immutable_within_sub]]].
  by rewrite Hn', <- (node_at_mono _ _ _ _ Hsub Hn').
Qed.

Lemma delete_loop_spec paths : forall f n errs,
  let '(f', n', errs') := delete_loop f paths n errs in
  sub_fs f' f
  /\ (n' + length errs' = n + length errs + length paths)%nat
  /\ (length errs <= length errs')%nat
  /\ ((exists p, In p paths /\ exists_ f p = false) ->
      (length errs < length errs')%nat)
  /\ (wf_fs f -> forall p k, In p paths -> removable f p k ->
                             node_at f' k = None).
Proof.
  induction paths as [|p paths IH]; intros f n errs; simpl.
  - split; [apply sub_fs_refl|]. split; [lia|]. split; [lia|]. split.
    + by intros (p & [] & _).
    + by intros _ p k [].
  - pose proof (delete_one_spec f p n errs) as H1.
    destruct (delete_one f p n errs) as [[f1 n1] errs1].
    destruct H1 as (Hsub1 & Hwf1 & Hcnt1 & Hle1 & Hmiss1 & Hgone1).
    specialize (IH f1 n1 errs1).
    destruct (delete_loop f1 paths n1 errs1) as [[f' n'] errs'].
    destruct IH as (Hsub & Hcnt & Hle & Hmiss & Hgone).
    split; [by eapply sub_fs_trans|]. split; [lia|]. split; [lia|]. split.
    + intros (q & [<-|Hq] & Hex).
      * specialize (Hmiss1 Hex). lia.
      * assert (length errs1 < length errs')%nat; [|lia].
        apply Hmiss. exists q. split; [done|]. by eapply exists_mono.
    + intros Hwf q k Hin Hq.
      assert (k <> []) as Hk by (by destruct Hq as (_ & ? & _)).
      destruct (node_at f1 k) as [n1'|] eqn:Hn1;
        [|by apply (node_gone_sub f' f1)].
      destruct Hin as [<-|Hin]; [by rewrite (Hgone1 k Hq) in Hn1|].
      apply (Hgone (Hwf1 Hwf) q k Hin).
      apply (removable_later f1 f); auto.
Qed.


End DeleteItemsFacts.

Section DeleteExamples.
Import PyStr Py Fs SecurityService FileOperationService.

Lemma sample_fs_wf : wf_fs Sample.sample_fs.
Proof.
  apply (@bool_decide_unpack _ (wf_fs_dec Sample.sample_fs)).
  vm_compute. exact I.
Qed.



End DeleteExamples.

Section PasteFacts.
Import PyStr Py Fs PosixPath SecurityService FileOperationService.
Variable u : user.

Lemma pasteable_intro f p dst :
  wf_fs f -> exists_ f p = true -> isdir f dst = true ->
  exists_ f (join dst (basename p)) = false -> inside f p dst = false ->
  exists ks kd ns, pasteable f p dst ks kd ns.
Proof.
  intros Hwf Hex Hdir Hfree Hin. unfold exists_, isdir, stat, inside in *.
  destruct (resolve f p) as [ks|] eqn:Hp; [|done].
  destruct (node_at f ks) as [ns|] eqn:Hn; [|done].
  destruct (resolve f dst) as [kd|] eqn:Hd; [|done].
  destruct (node_at f kd) as [[| |]|] eqn:Hk; try done.
  destruct (basename_cases p) as [Hb _].
  destruct (missing_entry_proper f dst (basename p) kd Hwf Hd Hk Hb)
    as [Hname Hnone].
  { unfold exists_, stat.
    by destruct (resolve f (join dst (basename p))) as [k|];
      [destruct (node_at f k)|]. }
  exists ks, kd, ns. by constructor.
Qed.

Lemma paste_one_fresh action f w p dst ks kd ns n errs f' :
  fs w = f -> pasteable f p dst ks kd ns ->
  transfer action f p (join dst (basename p)) = (f', Ok tt) ->
  paste_one u action dst (PasteAcc w n errs) p
  = PasteAcc (set_fs w f') (S n) errs.
Proof.
  intros Hw [Hp Hn Hd Hk Hb Hfree Hout] Ht. unfold paste_one. simpl.
  rewrite Hw. unfold exists_.
  rewrite (source_stat f p ks ns Hp Hn).
  rewrite (target_stat f p dst kd Hd Hk Hb Hfree). simpl.
  unfold finish_paste_one. simpl. by rewrite Hw, Ht.
Qed.

Lemma transfer_cut_fresh f p dst ks kd ns :
  pasteable f p dst ks kd ns -> is_immutable_node (Some ns) = false ->
  transfer "cut" f p (join dst (basename p))
  = (set_tree f (move_subtree ks (kd ++ [basename p]) (tree f)), Ok tt).
Proof.
  intros [Hp Hn Hd Hk Hb Hfree Hout] Hmay. unfold transfer. simpl.
  by eapply shutil_move_fresh.
Qed.

Lemma source_no_pipe f ks ns :
  node_at f ks = Some ns -> pipes_within ks (tree f) = [] -> ns <> Fifo.
Proof.
  intros Hn Hpipes ->. destruct ks as [|c ks]; [done|].
  apply (proj1 (pipes_within_nil _ _) Hpipes []). by rewrite app_nil_r.
Qed.

Lemma transfer_copy_fresh f p dst ks kd ns :
  pasteable f p dst ks kd ns -> pipes_within ks (tree f) = [] ->
  transfer "copy" f p (join dst (basename p))
  = (set_tree f (copied f p ks kd ns), Ok tt).
Proof.
  intros [Hp Hn Hd Hk Hb Hfree Hout] Hpipes. unfold transfer. simpl.
  rewrite (isdir_source f p ks ns Hp Hn).
  pose proof (source_no_pipe f ks ns Hn Hpipes) as Hnp.
  destruct ns as [data imm| |]; cbn [is_dir_node]; cbv iota; [| |done].
  - by eapply (shutil_copy2_fresh f p dst ks kd (File data imm)).
  - by eapply (shutil_copytree_fresh f p dst ks kd Dir).
Qed.

Lemma isdir_pasteable f p dst ks kd ns :
  pasteable f p dst ks kd ns -> isdir f dst = true.
Proof. intros [_ _ Hd Hk _ _ _]. unfold isdir, stat. by rewrite Hd, Hk. Qed.

Lemma paste_cut_fresh w p dst ks kd ns :
  pasteable (fs w) p dst ks kd ns -> is_immutable_node (Some ns) = false ->
  paste_from_clipboard u (Service (ClipDict "cut" [p])) w dst
  = (Service ClipEmptyList,
     set_fs w (set_tree (fs w)
                 (move_subtree ks (kd ++ [basename p]) (tree (fs w)))),
     (true, "Successfully cuted 1 of 1 item(s).")).
Proof.
  intros H Hmay. unfold paste_from_clipboard. simpl clipboard. cbv iota.
  rewrite (isdir_pasteable _ _ _ _ _ _ H). simpl negb. cbv iota.
  change (is_nil [p]) with false. cbv iota.
  unfold paste_loop. simpl fold_left.
  rewrite (paste_one_fresh "cut" (fs w) w p dst ks kd ns 0 [] _ eq_refl H
             (transfer_cut_fresh _ _ _ _ _ _ H Hmay)).
  reflexivity.
Qed.

Lemma paste_copy_fresh w p dst ks kd ns :
  pasteable (fs w) p dst ks kd ns -> pipes_within ks (tree (fs w)) = [] ->
  paste_from_clipboard u (Service (ClipDict "copy" [p])) w dst
  = (Service (ClipDict "copy" [p]),
     set_fs w (set_tree (fs w) (copied (fs w) p ks kd ns)),
     (true, "Successfully copyed 1 of 1 item(s).")).
Proof.
  intros H Hpipes. unfold paste_from_clipboard. simpl clipboard. cbv iota.
  rewrite (isdir_pasteable _ _ _ _ _ _ H). simpl negb. cbv iota.
  change (is_nil [p]) with false. cbv iota.
  unfold paste_loop. simpl fold_left.
  rewrite (paste_one_fresh "copy" (fs w) w p dst ks kd ns 0 [] _ eq_refl H
             (transfer_copy_fresh _ _ _ _ _ _ H Hpipes)).
  reflexivity.
Qed.

End PasteFacts.

Section ClipboardFacts.
Import PyStr Py Fs PosixPath SecurityService FileOperationService.
Variable u : user.

Lemma exists_grows f f' p :
  sub_fs f f' -> exists_ f p = true -> exists_ f' p = true.
Proof.
  intros Hsub. unfold exists_.
  destruct (stat f p) as [n|] eqn:Hs; [|done].
  by rewrite (stat_mono _ _ p n Hsub Hs).
Qed.

Lemma lookup_node_at f k : k <> [] -> node_at f k = tree f !! k.
Proof. by destruct k. Qed.

Lemma within_under_refl k : under k k = Some [].
Proof. rewrite <- (app_nil_r k) at 2. apply under_app. Qed.

(** Two keys that a third one extends: one extends the other. *)
Lemma prefixes_comparable (a b s1 s2 : key) :
  a ++ s1 = b ++ s2 -> (exists r, a = b ++ r) \/ (exists r, b = a ++ r).
Proof.
  revert b. induction a as [|x a IH]; intros [|y b] E; simpl in *.
  - left. by exists [].
  - right. by exists (y :: b).
  - left. by exists (x :: a).
  - injection E as -> E. destruct (IH b E) as [[r ->]|[r ->]];
      [left|right]; by exists r.
Qed.

Lemma snoc_not_nil (k : key) (b : string) : k ++ [b] <> [].
Proof. by destruct k. Qed.

(** After the move the source is gone and its subtree hangs under the
    destination. *)
Lemma moved_source_gone f p dst ks kd ns :
  wf_fs f -> pasteable f p dst ks kd ns ->
  exists_ (set_tree f (move_subtree ks (kd ++ [basename p]) (tree f))) p
  = false.
Proof.
  intros Hwf [Hp Hn Hd Hk Hb Hfree Hout].
  apply (gone_not_exists f _ p ks); [done|done|].
  pose proof (source_not_root f p ks Hp Hb) as Hne.
  rewrite lookup_node_at by done. simpl.
  rewrite lookup_move_subtree.
  destruct (under (kd ++ [basename p]) ks) as [suf|] eqn:E.
  - assert (within (kd ++ [basename p]) ks = true) as W
      by (unfold within; by rewrite E).
    rewrite (wf_nothing_below f _ _ Hwf Hfree W) in Hn. done.
  - by rewrite within_refl.
Qed.

(** The tree after a copy: the new subtree apart, it is the old
    one. *)
Lemma lookup_copied f p ks kd ns q :
  within (kd ++ [basename p]) q = false ->
  copied f p ks kd ns !! q = tree f !! q.
Proof.
  intros W. unfold copied.
  assert (q <> kd ++ [basename p]) as Hq
    by (intros ->; by rewrite within_refl in W).
  destruct ns as [data imm| |]; [| |done].
  - by rewrite lookup_insert_ne.
  - rewrite lookup_graft. apply under_None in W. rewrite W.
    by rewrite lookup_insert_ne.
Qed.

(** In a well-formed tree no node lies below a missing one. *)
Lemma node_outside f k q n :
  wf_fs f -> node_at f k = None -> tree f !! q = Some n ->
  within k q = false.
Proof.
  intros Hwf Hk Hq. destruct (within k q) eqn:W; [|done].
  pose proof (wf_nothing_below f k q Hwf Hk W) as Hnone.
  destruct q; [by destruct k|]. simpl in Hnone. congruence.
Qed.

Lemma copied_sub f p dst ks kd ns :
  wf_fs f -> pasteable f p dst ks kd ns ->
  sub_fs f (set_tree f (copied f p ks kd ns)).
Proof.
  intros Hwf H. split; [|done]. simpl. apply map_subseteq_spec.
  intros q n Hq. rewrite lookup_copied; [done|].
  eapply node_outside; [done|apply (pa_free _ _ _ _ _ _ H)|done].
Qed.

(** The copy is there: the target of a copy exists afterwards. *)
Lemma copied_target f p dst ks kd ns :
  wf_fs f -> pasteable f p dst ks kd ns -> ns <> Fifo ->
  exists_ (set_tree f (copied f p ks kd ns)) (join dst (basename p)) = true.
Proof.
  intros Hwf H Hnp. pose proof (copied_sub f p dst ks kd ns Hwf H) as Hsub.
  destruct H as [Hp Hn Hd Hk Hb Hfree Hout].
  assert (is_Some (copied f p ks kd ns !! (kd ++ [basename p]))) as [n Hc].
  { unfold copied. destruct ns as [data imm| |]; [| |done].
    - rewrite lookup_insert_eq. eauto.
    - rewrite lookup_graft, within_under_refl, lookup_omap, lookup_subtree.
      rewrite app_nil_r.
      pose proof (source_not_root f p ks Hp Hb) as Hne.
      rewrite lookup_node_at in Hn by done. rewrite Hn. simpl. eauto. }
  unfold exists_, stat.
  rewrite (resolve_mono _ _ _ _ Hsub (target_resolve f p dst kd Hd Hk Hb)).
  rewrite lookup_node_at by apply snoc_not_nil. simpl. by rewrite Hc.
Qed.

(** A tree in which every node hangs in a directory is well formed. *)
Lemma wf_intro f :
  (forall q1 q2 n, tree f !! (q1 ++ q2) = Some n -> q1 <> [] -> q2 <> [] ->
                   tree f !! q1 = Some Dir) ->
  wf_fs f.
Proof.
  intros H q n Hq. cbv beta. rewrite Forall_forall.
  intros i Hi. apply elem_of_seq in Hi.
  destruct (decide (firstn i q = [])) as [E|Hne]; [by rewrite E|].
  rewrite lookup_node_at by done.
  apply (H _ (skipn i q) n); [by rewrite take_drop|done|].
  intros E. apply (f_equal length) in E. rewrite length_skipn in E.
  simpl in E. lia.
Qed.

(** A copy leaves the tree well formed. *)
Lemma wf_copied f p dst ks kd ns :
  wf_fs f -> pasteable f p dst ks kd ns ->
  wf_fs (set_tree f (copied f p ks kd ns)).
Proof.
  intros Hwf H. pose proof (copied_sub f p dst ks kd ns Hwf H) as [Hsub _].
  destruct H as [Hp Hn Hd Hk Hb Hfree Hout].
  pose proof (source_not_root f p ks Hp Hb) as Hks.
  apply wf_intro. simpl in *. intros q1 q2 n Hq Hq1 Hq2.
  assert (forall m, node_at f q1 = Some m -> tree f !! q1 = Some m) as Hat
    by (intros m; by rewrite lookup_node_at).
  destruct (within (kd ++ [basename p]) (q1 ++ q2)) eqn:W.
  - apply within_true in W as [suf E].
    destruct (prefixes_comparable _ _ _ _ E) as [[r Er]|[r Er]].
    + (* [q1] is in the copy *)
      subst q1. rewrite <- app_assoc in E. apply app_inv_head in E.
      subst suf. rewrite <- app_assoc in Hq.
      assert (node_at f ((kd ++ [basename p]) ++ r ++ q2) = None) as Hbelow.
      { apply (wf_nothing_below f (kd ++ [basename p])); [done|done|].
        apply within_true. by eexists. }
      rewrite lookup_node_at in Hbelow by (by destruct kd).
      unfold copied in *. destruct ns as [data imm| |].
      * rewrite lookup_insert_ne in Hq; [congruence|].
        rewrite <- (app_nil_r (kd ++ [basename p])) at 1.
        intros E. apply app_inv_head in E. by destruct r.
      * rewrite lookup_graft, under_app, lookup_omap, lookup_subtree in Hq.
        rewrite lookup_graft, under_app, lookup_omap, lookup_subtree.
        destruct (tree f !! (ks ++ r ++ q2)) as [n0|] eqn:E0; [|done].
        rewrite app_assoc in E0.
        assert (node_at f (ks ++ r) = Some Dir) as Hdir.
        { apply (wf_prefix f (ks ++ r) q2 Hwf); [|done]. exists n0.
          rewrite lookup_node_at; [done|]. by destruct ks, r. }
        rewrite lookup_node_at in Hdir by (by destruct ks). by rewrite Hdir.
      * congruence.
    + (* [q1] is above the copy *)
      destruct (decide (r = [])) as [->|Hr].
      { rewrite app_nil_r in Er. subst q1.
        assert (node_at f ((kd ++ [basename p]) ++ q2) = None) as Hbelow.
        { apply (wf_nothing_below f (kd ++ [basename p])); [done|done|].
          apply within_true. by eexists. }
        rewrite lookup_node_at in Hbelow by (by destruct kd).
        unfold copied in *. destruct ns as [data imm| |].
        - rewrite lookup_insert_ne in Hq; [congruence|].
          rewrite <- (app_nil_r (kd ++ [basename p])) at 1.
          intros E'. apply app_inv_head in E'. by destruct q2.
        - rewrite lookup_graft, under_app, lookup_omap, lookup_subtree in Hq.
          rewrite lookup_graft, within_under_refl, lookup_omap,
            lookup_subtree, app_nil_r.
          rewrite lookup_node_at in Hn by done. by rewrite Hn.
        - congruence. }
      destruct (exists_last Hr) as (r' & c & ->).
      rewrite app_assoc in Er. apply app_inj_tail in Er as [Er _].
      eapply lookup_weaken; [|exact Hsub]. apply Hat.
      destruct (decide (r' = [])) as [->|Hr'];
        [rewrite app_nil_r in Er; by subst q1|].
      apply (wf_prefix f q1 r' Hwf); [|done]. rewrite <- Er, Hk. eauto.
  - rewrite lookup_copied in Hq by done.
    eapply lookup_weaken; [|exact Hsub]. apply Hat.
    apply (wf_prefix f q1 q2 Hwf); [|done]. exists n.
    rewrite lookup_node_at; [done|]. by destruct q1.
Qed.

(** A copy puts no named pipe into the source. *)
Lemma pipes_after_copy f p dst ks kd ns :
  wf_fs f -> pasteable f p dst ks kd ns ->
  pipes_within ks (tree f) = [] ->
  pipes_within ks (copied f p ks kd ns) = [].
Proof.
  intros Hwf H Hpipes. apply pipes_within_nil. intros suf.
  rewrite lookup_copied; [by apply (proj1 (pipes_within_nil _ _) Hpipes)|].
  destruct H as [Hp Hn Hd Hk Hb Hfree Hout].
  destruct (within (kd ++ [basename p]) (ks ++ suf)) eqn:W; [|done].
  apply within_true in W as [s2 E].
  pose proof (target_outside f p ks kd ns Hn Hfree Hout) as Hout'.
  destruct (prefixes_comparable _ _ _ _ E) as [[r ->]|[r Er]].
  - assert (within (kd ++ [basename p]) ((kd ++ [basename p]) ++ r) = true)
      as W by (apply within_true; by exists r).
    rewrite (wf_nothing_below f _ _ Hwf Hfree W) in Hn. done.
  - rewrite Er in Hout'.
    assert (within ks (ks ++ r) = true) as W
      by (apply within_true; by exists r).
    congruence.
Qed.

Lemma copied_twice_sub f p dst dst2 ks kd kd2 ns :
  wf_fs f -> pasteable f p dst ks kd ns -> pasteable f p dst2 ks kd2 ns ->
  sub_fs f (set_tree f (copied (set_tree f (copied f p ks kd ns)) p ks kd2 ns)).
Proof.
  intros Hwf H1 H2. split; [|done]. simpl. apply map_subseteq_spec.
  intros q n Hq. rewrite lookup_copied.
  - simpl. rewrite lookup_copied; [done|].
    eapply node_outside; [done|apply (pa_free _ _ _ _ _ _ H1)|done].
  - eapply node_outside; [done|apply (pa_free _ _ _ _ _ _ H2)|done].
Qed.

(** After a copy into one directory, the path can still be pasted into
    another. *)
Lemma pasteable_after_copy f p dst dst2 ks kd kd2 ns :
  wf_fs f -> pasteable f p dst ks kd ns -> pasteable f p dst2 ks kd2 ns ->
  kd <> kd2 ->
  pasteable (set_tree f (copied f p ks kd ns)) p dst2 ks kd2 ns.
Proof.
  intros Hwf H1 H2 Hne.
  pose proof (copied_sub f p dst ks kd ns Hwf H1) as Hsub.
  destruct H2 as [Hp Hn Hd Hk Hb Hfree Hout]. constructor; try done.
  - by eapply resolve_mono.
  - by eapply node_at_mono.
  - by eapply resolve_mono.
  - by eapply node_at_mono.
  - rewrite lookup_node_at by apply snoc_not_nil. simpl.
    rewrite lookup_copied.
    + by rewrite <- lookup_node_at by apply snoc_not_nil.
    + destruct (within (kd ++ [basename p]) (kd2 ++ [basename p])) eqn:W;
        [|done].
      apply within_true in W as [suf E].
      destruct (decide (suf = [])) as [->|Hs].
      * rewrite app_nil_r in E. apply app_inj_tail in E as [E _]. congruence.
      * destruct (exists_last Hs) as (suf' & c & ->).
        rewrite !app_assoc in E. apply app_inj_tail in E as [E _].
        assert (within (kd ++ [basename p]) kd2 = true) as W'
          by (apply within_true; exists suf'; by rewrite E).
        rewrite (wf_nothing_below f _ _ Hwf (pa_free _ _ _ _ _ _ H1) W')
          in Hk. done.
Qed.


End ClipboardFacts.

Section ClipboardExamples.
Import PyStr Py Fs PosixPath SecurityService FileOperationService.



End ClipboardExamples.

(** ** The command interpreter *)

Section CommandInterpreterFacts.
Import PyStr Py Fs FileOperations CommandInterpreter.
Variable env : PosixPath.user_env.
Variables cmd_ls cmd_cat cmd_find : handler.

Local Abbreviation execute := (execute env cmd_ls cmd_cat cmd_find).
Local Abbreviation dispatch := (dispatch env cmd_ls cmd_cat cmd_find).
Local Abbreviation commands := (commands env cmd_ls cmd_cat cmd_find).

(** In an equation [D] on [dispatch], replace the tokenization by its
    outcome [Hs] and the table lookup by its outcome [Hc]. *)
Local Ltac looked_up Hs Hc D :=
  rewrite Hs in D; cbv beta iota zeta in D; unfold handler in *;
  rewrite Hc in D.

(** C6.  [execute] returns a reply for every command line.  A command
    line that cannot be tokenized, a command that is not in the table
    and a handler that raises each give a reply whose success flag is
    [False] and whose message names the error. *)
Theorem execute_always_replies (i : interp) (s : sys) (command_line : string) :
  exists i' s' r,
    execute i s command_line = (i', s', Ok r)
    /\ (strip command_line <> "" ->
        (forall e, Shlex.split command_line = Raise e ->
           r = (false, "Error: " +:+ exn_str e, []))
        /\ (forall a0 rest, Shlex.split command_line = Ok (a0 :: rest) ->
              commands !! lower a0 = None ->
              r = (false, "Command not found: " +:+ lower a0, []))
        /\ (forall a0 rest h i2 s2 e,
              Shlex.split command_line = Ok (a0 :: rest) ->
              commands !! lower a0 = Some h ->
              h (entered i command_line) s rest = (i2, s2, Raise e) ->
              r = (false, "Error: " +:+ exn_str e, []))).
Proof.
  unfold CommandInterpreter.execute.
  destruct (String.eqb_spec (strip command_line) "") as [Hblank|Hline].
  { eexists _, _, _. split; [reflexivity|]. done. }
  fold (entered i command_line).
  destruct (dispatch (entered i command_line) s command_line)
    as [[i' s'] [r|e]] eqn:D.
  - exists i', s', r. split; [done|]. intros _.
    unfold CommandInterpreter.dispatch in D. repeat split.
    + intros e He. rewrite He in D. discriminate.
    + intros a0 rest Hs Hc. looked_up Hs Hc D. by inversion D.
    + intros a0 rest h i2 s2 e Hs Hc Hh. looked_up Hs Hc D.
      rewrite Hh in D.
      discriminate.
  - eexists i', s', _. split; [reflexivity|]. intros _.
    unfold CommandInterpreter.dispatch in D. repeat split.
    + intros e' He. rewrite He in D. by inversion D.
    + intros a0 rest Hs Hc. looked_up Hs Hc D. discriminate.
    + intros a0 rest h i2 s2 e' Hs Hc Hh. looked_up Hs Hc D.
      rewrite Hh in D.
      by inversion D.
Qed.

Lemma commands_cd : commands !! "cd" = Some (cmd_cd env).
Proof. reflexivity. Qed.

(** C7.  When the argument of [cd] resolves to a path that does not
    exist or is not a directory, the command fails and the interpreter,
    its current directory included, is as before; and so it is when
    the command comes through [execute], which adds the line to the
    history and nothing else. *)
Theorem cd_failure_keeps_directory (i : interp) (s : sys)
    (arg : string) (rest : list string) :
  exists_ (sys_fs s) (resolve_path env i arg) = false
  \/ isdir (sys_fs s) (resolve_path env i arg) = false ->
  (exists msg,
     cmd_cd env i s (arg :: rest) = (i, s, Ok (false, msg, [])))
  /\ (forall command_line a0,
        strip command_line <> "" ->
        Shlex.split command_line = Ok (a0 :: arg :: rest) ->
        lower a0 = "cd" ->
        exists msg,
          execute i s command_line
          = (entered i command_line, s, Ok (false, msg, []))
          /\ current_directory (entered i command_line)
             = current_directory i).
Proof.
  intros H.
  assert (forall i0, current_directory i0 = current_directory i ->
            exists msg, cmd_cd env i0 s (arg :: rest)
                        = (i0, s, Ok (false, msg, []))) as Hcd.
  { intros i0 Hi0. unfold cmd_cd.
    assert (resolve_path env i0 arg = resolve_path env i arg) as ->
      by (unfold resolve_path; by rewrite Hi0).
    destruct (exists_ (sys_fs s) (resolve_path env i arg)) eqn:Hex; simpl.
    - destruct H as [H|H]; [done|]. rewrite H. simpl. by eexists.
    - by eexists. }
  split; [by apply Hcd|].
  intros command_line a0 Hline Hs Ha0.
  destruct (Hcd (entered i command_line) eq_refl) as [msg Hmsg].
  exists msg. split; [|done].
  unfold CommandInterpreter.execute.
  destruct (String.eqb_spec (strip command_line) ""); [done|].
  fold (entered i command_line).
  unfold CommandInterpreter.dispatch. rewrite Hs. cbv beta iota zeta.
  rewrite Ha0. pose proof commands_cd as Hc. unfold handler in *.
  rewrite Hc. by rewrite Hmsg.
Qed.

Lemma delete_item_file_keeps_dirs s path k :
  isdir (sys_fs s) path = false ->
  node_at (sys_fs s) k = Some Dir ->
  node_at (sys_fs (delete_item s path).1) k = Some Dir.
Proof.
  intros Hnd Hk. unfold delete_item. rewrite Hnd.
  pose proof (os_remove_keeps_dirs (sys_fs s) path k Hk) as H.
  unfold completed. by destruct (os_remove (sys_fs s) path) as [f [[]|e]].
Qed.

(** C8.  Without "-r" and "-rf" among its arguments, [rm] on an
    existing directory fails and changes nothing; and whatever its
    target, every directory there was is still there afterwards. *)
Theorem rm_needs_recursive_flag (i : interp) (s : sys) (args : list string) :
  has_arg "-r" args = false ->
  has_arg "-rf" args = false ->
  (forall p rest,
      List.filter (fun arg => negb (is_option arg)) args = p :: rest ->
      isdir (sys_fs s) (resolve_path env i p) = true ->
      cmd_rm env i s args
      = (i, s, Ok (false, "Cannot remove directory without -r option: "
                          +:+ resolve_path env i p, [])))
  /\ (forall k, node_at (sys_fs s) k = Some Dir ->
                node_at (sys_fs (cmd_rm env i s args).1.2) k = Some Dir).
Proof.
  intros Hr Hrf. unfold cmd_rm. rewrite Hr, Hrf. simpl. split.
  - intros p rest Hf Hd. destruct args as [|a args']; [done|].
    rewrite Hf. rewrite (isdir_exists _ _ Hd), Hd. done.
  - intros k Hk. destruct args as [|a args']; [done|].
    destruct (List.filter _ (a :: args')) as [|p rest]; [done|].
    destruct (exists_ _ _); simpl; [|done].
    destruct (isdir _ _) eqn:Hd; [done|].
    pose proof (delete_item_file_keeps_dirs s (resolve_path env i p) k Hd Hk).
    by destruct (delete_item s (resolve_path env i p)).
Qed.

End CommandInterpreterFacts.

Section CommandExamples.
Import PyStr Py Fs FileOperations CommandInterpreter.

Lemma cd_failure_keeps_directory_witness :
  exists msg,
    execute Sample.sample_env no_listing no_listing no_listing
            sample_interp sample_sys "cd nonexistent_dir"
    = (Interp "/docs" ["cd nonexistent_dir"] 1, sample_sys,
       Ok (false, msg, []))
    /\ current_directory (Interp "/docs" ["cd nonexistent_dir"] 1)
       = current_directory sample_interp.
Proof.
  apply (proj2 (cd_failure_keeps_directory Sample.sample_env
                  no_listing no_listing no_listing sample_interp sample_sys
                  "nonexistent_dir" [] (or_introl eq_refl))
               "cd nonexistent_dir" "cd");
    [vm_compute; discriminate | reflexivity | reflexivity].
Defined.

Lemma rm_needs_recursive_flag_witness :
  cmd_rm Sample.sample_env sample_interp sample_sys ["old"]
  = (sample_interp, sample_sys,
     Ok (false, "Cannot remove directory without -r option: /docs/old", [])).
Proof.
  apply (proj1 (rm_needs_recursive_flag Sample.sample_env sample_interp
                  sample_sys ["old"] eq_refl eq_refl) "old" []); reflexivity.
Defined.

Example execute_cd_enters :
  execute Sample.sample_env no_listing no_listing no_listing
          sample_interp sample_sys "CD old"
  = (Interp "/docs/old" ["CD old"] 1, sample_sys,
     Ok (true, "Changed directory to: /docs/old", [])).
Proof. reflexivity. Qed.

Example execute_rm_recursive :
  let r := execute Sample.sample_env no_listing no_listing no_listing
                   sample_interp sample_sys "rm -r old" in
  r.2 = Ok (true, "Removed directory: /docs/old", [])
  /\ isdir (sys_fs r.1.2) "/docs/old" = false.
Proof. vm_compute. done. Qed.

Example execute_unclosed_quote :
  (execute Sample.sample_env no_listing no_listing no_listing
           sample_interp sample_sys "rm 'old").2
  = Ok (false, "Error: No closing quotation", []).
Proof. reflexivity. Qed.

End CommandExamples.

(** ** The handler of LLM responses *)

Section LlmResponseFacts.
Import PyStr Py Json LlmResponse.

(** The loop stops at the first line that yields a candidate. *)
Lemma first_candidate_app pre line post j :
  Forall (fun l => candidate_of_line l = None) pre ->
  candidate_of_line line = Some j ->
  first_candidate (pre ++ line :: post) = Some j.
Proof.
  intros Hpre Hline. induction Hpre as [|l pre Hl _ IH]; simpl.
  - by rewrite Hline.
  - by rewrite Hl.
Qed.

Lemma first_candidate_none ls :
  Forall (fun l => candidate_of_line l = None) ls ->
  first_candidate ls = None.
Proof. induction 1 as [|l ls Hl _ IH]; simpl; [done|by rewrite Hl]. Qed.

(** A candidate has at least its two brackets. *)
Lemma take_nonempty n s : (0 < n)%nat -> s <> "" -> take n s <> "".
Proof. destruct n, s; simpl; try done; lia. Qed.

Lemma find_from_range ch s i :
  (find_from ch s i = -1 \/ i <= find_from ch s i < i + len s)%Z.
Proof.
  revert i. induction s as [|c s IH]; intros i; simpl; [by left|].
  unfold len in *. simpl String.length.
  destruct (char_eqb c ch); [right; lia|].
  destruct (IH (i + 1)%Z) as [->|H]; [by left|right; lia].
Qed.

Lemma rfind_from_range ch s i last :
  (rfind_from ch s i last = last
   \/ i <= rfind_from ch s i last < i + len s)%Z.
Proof.
  revert i last. induction s as [|c s IH]; intros i last; simpl; [by left|].
  unfold len in *. simpl String.length.
  destruct (IH (i + 1)%Z (if char_eqb c ch then i else last)) as [->|H].
  - destruct (char_eqb c ch); [right; lia|by left].
  - right; lia.
Qed.

Lemma length_drop n s : String.length (drop n s) = (String.length s - n)%nat.
Proof. revert s. induction n as [|n IH]; intros [|c s]; simpl; auto. Qed.

Lemma slice_nonempty s lo hi :
  (0 <= lo < hi)%Z -> (hi <= len s)%Z -> slice s lo hi <> "".
Proof.
  intros Hlo Hhi. unfold slice, clamp_index, len in *.
  destruct (Z.ltb_spec lo 0); [lia|]. destruct (Z.ltb_spec hi 0); [lia|].
  apply take_nonempty; [lia|].
  intros E. apply (f_equal String.length) in E. rewrite length_drop in E.
  simpl in E. lia.
Qed.

(** A candidate is never the empty string. *)
Lemma candidate_nonempty line j : candidate_of_line line = Some j -> j <> "".
Proof.
  unfold candidate_of_line. destruct (startswith _ _); [|done].
  set (json_part := strip _).
  destruct (Z.eqb_spec (find "[" json_part) (-1)); [done|].
  destruct (Z.eqb_spec (rfind "]" json_part) (-1)); [done|].
  destruct (Z.ltb_spec (find "[" json_part) (rfind "]" json_part)); [|done].
  simpl. intros [= <-]. apply slice_nonempty.
  - destruct (find_from_range "[" json_part 0) as [?|?]; [done|].
    unfold find in *. lia.
  - destruct (rfind_from_range "]" json_part 0 (-1)) as [?|?]; [done|].
    unfold rfind in *. lia.
Qed.

Lemma selections_process_json j : selections (process_json j) = selection_of j.
Proof.
  unfold process_json, selection_of.
  destruct (loads j) as [v|e]; [destruct (as_string_list v); done|].
  by destruct (String.eqb _ _).
Qed.

Lemma selections_handle b text :
  selections (handle_llm_response b text)
  = match json_str_to_parse text with
    | Some j => if String.eqb j "" then [] else selection_of j
    | None => []
    end.
Proof.
  unfold handle_llm_response, selections.
  rewrite !omap_app. simpl.
  replace (omap _ (if b then _ else _)) with (@nil (list ustring))
    by (by destruct b).
  simpl. rewrite app_nil_r.
  destruct (json_str_to_parse text) as [j|]; [|done].
  destruct (String.eqb j ""); [done|]. apply selections_process_json.
Qed.

Lemma logged_errors_handle b text :
  logged_errors (handle_llm_response b text)
  = match json_str_to_parse text with
    | Some j => if String.eqb j "" then [] else logged_errors (process_json j)
    | None => []
    end.
Proof.
  unfold handle_llm_response, logged_errors.
  rewrite !omap_app. simpl.
  replace (omap _ (if b then _ else _)) with (@nil log_call)
    by (by destruct b).
  simpl. rewrite app_nil_r.
  destruct (json_str_to_parse text) as [j|]; [|done].
  by destruct (String.eqb j "").
Qed.

Lemma handle_finalizes b text :
  last (handle_llm_response b text) = Some FinalizeLlmProcessing.
Proof.
  unfold handle_llm_response. rewrite !app_assoc. apply last_snoc.
Qed.

(** The string handed to the parser, and what is selected, when the
    first line with a candidate is known. *)
Lemma handle_first_candidate b text pre line post j :
  response_lines text = pre ++ line :: post ->
  Forall (fun l => candidate_of_line l = None) pre ->
  candidate_of_line line = Some j ->
  json_str_to_parse text = Some j
  /\ selections (handle_llm_response b text) = selection_of j
  /\ logged_errors (handle_llm_response b text)
     = logged_errors (process_json j).
Proof.
  intros Hlines Hpre Hline.
  pose proof (candidate_nonempty _ _ Hline) as Hj.
  assert (json_str_to_parse text = Some j) as Hp.
  { unfold json_str_to_parse. rewrite Hlines.
    by apply first_candidate_app. }
  split; [done|]. rewrite selections_handle, logged_errors_handle, Hp.
  by destruct (String.eqb_spec j "").
Qed.

(** C4, as the code has it.  The first line that starts with the prefix
    and has a "[" before a later "]" supplies the string handed to the
    parser, whatever the lines after it hold; the browser is told to
    select exactly when that string is a JSON array of strings. *)
Theorem first_bracketed_line_is_used (b : bool) (text : string)
    (pre : list string) (line : string) (post : list string) (j : string) :
  response_lines text = pre ++ line :: post ->
  Forall (fun l => candidate_of_line l = None) pre ->
  candidate_of_line line = Some j ->
  json_str_to_parse text = Some j
  /\ selections (handle_llm_response b text) = selection_of j.
Proof.
  intros Hlines Hpre Hline.
  destruct (handle_first_candidate b text pre line post j Hlines Hpre Hline)
    as (H1 & H2 & _).
  by split.
Qed.

Lemma candidate_of_stripped line l :
  strip line = l -> l = strip l -> candidate_of_line line = candidate_of_line l.
Proof. intros H1 H2. unfold candidate_of_line. rewrite <- H2, H1. done. Qed.

End LlmResponseFacts.

Section LlmResponseExamples.
Import PyStr Py Json LlmResponse.

Lemma first_bracketed_line_is_used_witness :
  json_str_to_parse two_line_response = Some "[oops]"
  /\ selections (handle_llm_response true two_line_response) = [].
Proof.
  apply (first_bracketed_line_is_used true two_line_response []
           "FOUND_FILES_JSON: [oops]" [spec_line] "[oops]");
    [reflexivity | constructor | reflexivity].
Defined.

(** C4, as stated, fails: the second line carries a well-formed array of
    paths, the first a malformed one, and nothing is selected. *)
Lemma later_well_formed_line_ignored :
  response_lines two_line_response = ["FOUND_FILES_JSON: [oops]"; spec_line]
  /\ (exists j, candidate_of_line spec_line = Some j
                /\ selection_of j = [spec_paths])
  /\ selections (handle_llm_response true two_line_response) = []
  /\ selections (handle_llm_response true two_line_response) <> [spec_paths].
Proof.
  split; [reflexivity|]. split.
  - eexists. split; reflexivity.
  - split; [reflexivity|]. vm_compute. discriminate.
Qed.

Lemma candidate_of_spec_line :
  candidate_of_line spec_line
  = Some ("[" +:+ dq +:+ "/a/b.txt" +:+ dq +:+ "," +:+ dq +:+ "/c/d.txt"
          +:+ dq +:+ "]").
Proof. reflexivity. Qed.

(** C3, as the code has it.  When the line of the specification, white
    space around it aside, is the first line of the response with a
    bracketed part after the prefix, the browser is told to select
    exactly the two paths; when the bracketed part of the first such line
    is not valid JSON, nothing is selected and an error is logged; and in
    every case the handler runs to its end. *)
Theorem found_files_line_extracted (b : bool) (text : string)
    (pre : list string) (line : string) (post : list string) :
  response_lines text = pre ++ line :: post ->
  Forall (fun l => candidate_of_line l = None) pre ->
  (strip line = spec_line ->
   selections (handle_llm_response b text) = [spec_paths])
  /\ (forall j e, candidate_of_line line = Some j -> loads j = Raise e ->
        selections (handle_llm_response b text) = []
        /\ logged_errors (handle_llm_response b text) <> [])
  /\ last (handle_llm_response b text) = Some FinalizeLlmProcessing.
Proof.
  intros Hlines Hpre. split; [|split].
  - intros Hline.
    assert (candidate_of_line line = candidate_of_line spec_line) as Hc
      by (by apply candidate_of_stripped).
    rewrite candidate_of_spec_line in Hc.
    destruct (handle_first_candidate b text pre line post _ Hlines Hpre Hc)
      as (_ & -> & _).
    reflexivity.
  - intros j e Hc He.
    destruct (handle_first_candidate b text pre line post j Hlines Hpre Hc)
      as (_ & -> & ->).
    unfold selection_of, process_json. rewrite He. split; [done|].
    by destruct (String.eqb _ _).
  - apply handle_finalizes.
Qed.

Lemma found_files_line_extracted_witness :
  selections (handle_llm_response true
                ("Here are the files." +:+ nl +:+ "  " +:+ spec_line +:+ nl +:+ "Done."))
  = [spec_paths].
Proof.
  apply (found_files_line_extracted true _ ["Here are the files."]
           ("  " +:+ spec_line) ["Done."]);
    [reflexivity | repeat constructor | reflexivity].
Defined.

(** C3, as stated, fails twice over: a response can contain the line of
    the specification and select nothing, because an earlier line was
    taken; and a line with malformed JSON and no closing bracket logs no
    error. *)
Lemma found_files_line_not_always_extracted :
  In spec_line (response_lines two_line_response)
  /\ selections (handle_llm_response true two_line_response) = []
  /\ loads (strip (slice_from truncated_line (len found_files_prefix)))
     = Raise JSONDecodeError
  /\ selections (handle_llm_response true truncated_line) = []
  /\ logged_errors (handle_llm_response true truncated_line) = [].
Proof.
  split; [right; left; reflexivity|]. vm_compute. done.
Qed.

End LlmResponseExamples.

(** ** The metadata store *)

Section MetadataServiceFacts.
Import PyStr MetadataService.
Variable cwd : string.
Hypothesis cwd_absolute : PosixPath.isabs cwd = true.

Lemma current_tags_str_stored t n ts :
  current_tags_str (Row (Some t) n ts) = t.
Proof.
  unfold current_tags_str. simpl.
  destruct (String.eqb_spec t "") as [->|_]; [done|]. simpl.
  apply (join_split ","%char).
Qed.

Lemma save_settled now d p tag_list note_text r :
  connected d = true ->
  table d !! PosixPath.abspath cwd p = Some r ->
  settled r tag_list note_text ->
  save_metadata cwd now d p tag_list note_text
  = run d (Select (PosixPath.abspath cwd p)) (table d).
Proof.
  intros Hc Hr [Ht Hn]. unfold save_metadata, get_metadata.
  rewrite Hc. simpl. rewrite (abspath_idempotent cwd p cwd_absolute), Hr.
  simpl. fold (current_tags_str r).
  assert (match tag_list with
          | Some l => if negb (tags_to_str l =? current_tags_str r)%string
                      then Some (tags_to_str l) else None
          | None => None
          end = None) as ->.
  { destruct tag_list as [l|]; [|done].
    rewrite (Ht l eq_refl), String.eqb_refl. done. }
  assert (match note_text with
          | Some n => if negb (bool_decide (Some n = notes r))
                      then Some n else None
          | None => None
          end = None) as ->.
  { destruct note_text as [n|]; [|done].
    rewrite bool_decide_true by auto. done. }
  done.
Qed.

(** After a save, the row is settled for the values saved. *)
Lemma save_settles now d p tag_list note_text :
  connected d = true ->
  exists r,
    table (save_metadata cwd now d p tag_list note_text)
      !! PosixPath.abspath cwd p = Some r
    /\ settled r tag_list note_text.
Proof.
  intros Hc. unfold save_metadata, get_metadata.
  rewrite Hc. simpl. rewrite (abspath_idempotent cwd p cwd_absolute).
  set (K := PosixPath.abspath cwd p).
  destruct (table d !! K) as [r|] eqn:Hr; simpl.
  - fold (current_tags_str r).
    set (tc := match tag_list with
               | Some l => if negb (tags_to_str l =? current_tags_str r)%string
                           then Some (tags_to_str l) else None
               | None => None
               end).
    set (nc := match note_text with
               | Some n => if negb (bool_decide (Some n = notes r))
                           then Some n else None
               | None => None
               end).
    assert (settled (updated r tc nc now) tag_list note_text) as Hset.
    { split.
      - intros l ->. unfold tc, updated.
        destruct (String.eqb_spec (tags_to_str l) (current_tags_str r))
          as [E|E]; simpl.
        + by destruct r.
        + by rewrite current_tags_str_stored.
      - intros n ->. unfold nc, updated. simpl.
        destruct (decide (Some n = notes r)) as [E|E].
        + rewrite bool_decide_true by done. simpl.
          by destruct tc.
        + rewrite bool_decide_false by done. done. }
    assert (tc = None -> nc = None -> settled r tag_list note_text) as Hnone.
    { intros Etc Enc. split.
      - intros l ->. unfold tc in Etc.
        by destruct (String.eqb_spec (tags_to_str l) (current_tags_str r)).
      - intros n ->. unfold nc in Enc.
        by destruct (decide (Some n = notes r));
          [|rewrite bool_decide_false in Enc by done]. }
    destruct tc as [t|] eqn:Etc, nc as [n|] eqn:Enc; simpl;
      try (rewrite Hr; simpl; rewrite lookup_insert_eq; by eexists).
    exists r. split; [done|]. by apply Hnone.
  - rewrite lookup_insert_eq. eexists. split; [done|]. split.
    + intros l ->. by rewrite current_tags_str_stored.
    + by intros n ->.
Qed.

(** C5.  Saving the same tags and notes for the same path a second
    time executes no INSERT and no UPDATE and leaves the table, the
    time stamps included, as the first save left it. *)
Theorem second_save_writes_nothing (now1 now2 : nat) (d : database)
    (file_path : string) (tag_list : option (list string))
    (note_text : option string) :
  let d1 := save_metadata cwd now1 d file_path tag_list note_text in
  let d2 := save_metadata cwd now2 d1 file_path tag_list note_text in
  table d2 = table d1
  /\ exists sent, executed d2 = executed d1 ++ sent
                  /\ Forall (fun st => is_write st = false) sent.
Proof.
  intros d1 d2.
  destruct (connected d) eqn:Hc.
  - assert (connected d1 = true) as Hc1.
    { unfold d1, save_metadata, get_metadata. rewrite Hc. simpl.
      destruct (table d !! _); simpl; [|done].
      by repeat match goal with |- context [match ?x with _ => _ end] =>
                                  destruct x end. }
    destruct (save_settles now1 d file_path tag_list note_text Hc)
      as (r & Hr & Hset). fold d1 in Hr.
    unfold d2. rewrite (save_settled now2 d1 _ _ _ r Hc1 Hr Hset). simpl.
    split; [done|]. eexists. split; [done|]. by repeat constructor.
  - assert (d1 = d) as Hd1 by (unfold d1, save_metadata; by rewrite Hc).
    unfold d2. rewrite Hd1. unfold save_metadata. rewrite Hc. simpl.
    split; [done|]. exists []. by rewrite app_nil_r.
Qed.

End MetadataServiceFacts.

Section MetadataExamples.
Import PyStr MetadataService.

Lemma second_save_writes_nothing_witness :
  let d1 := save_metadata "/home/u" 10 sample_db "notes/a.txt"
              (Some ["work"; " draft "]) (Some "to review") in
  let d2 := save_metadata "/home/u" 25 d1 "notes/a.txt"
              (Some ["work"; " draft "]) (Some "to review") in
  table d2 = table d1
  /\ exists sent, executed d2 = executed d1 ++ sent
                  /\ Forall (fun st => is_write st = false) sent.
Proof.
  exact (second_save_writes_nothing "/home/u" eq_refl 10 25 sample_db
           "notes/a.txt" (Some ["work"; " draft "]) (Some "to review")).
Defined.

Example first_save_inserts :
  executed (save_metadata "/home/u" 10 sample_db "notes/a.txt"
              (Some ["work"; " draft "]) (Some "to review"))
  = [Select "/home/u/notes/a.txt";
     Insert "/home/u/notes/a.txt" "work,draft" "to review";
     Commit].
Proof. reflexivity. Qed.

Example changed_note_updates :
  let d1 := save_metadata "/home/u" 10 sample_db "notes/a.txt"
              (Some ["work"]) (Some "to review") in
  executed (save_metadata "/home/u" 25 d1 "notes/a.txt"
              (Some ["work"]) (Some "reviewed"))
  = executed d1 ++ [Select "/home/u/notes/a.txt";
                    Update "/home/u/notes/a.txt" None (Some "reviewed");
                    Commit].
Proof. reflexivity. Qed.

End MetadataExamples.
